(** * The configuration controller of music_assistant

    A shallow embedding of [music_assistant/controllers/config.py]: the
    path-addressed settings store ([get], [set], [set_default], [remove]),
    the secret cipher ([encrypt_string], [decrypt_string]), loading and
    migration ([_load], [_migrate], [_async_save]) and the provider and player
    configuration lifecycle ([save_provider_config], [_add_provider_config],
    [_update_provider_config], [remove_provider_config],
    [remove_player_config]).

    Python objects are mutated in place; here every method is a state
    transformer that keeps the state it reached when an exception is raised,
    and a mutation of a nested dict is written back into its parent. That
    holds for the stored dict a provider module is handed as well: the entries
    resolver of providers/lastfm_scrobble, which writes into it, is embedded
    at the end. *)

From Stdlib Require Import String Ascii List ZArith QArith Bool Lia DecimalString.
Import ListNotations.
Set Warnings "-register-all".
Local Open Scope string_scope.
Local Open Scope list_scope.

(** ** Python values and the operations the controller applies to them *)

Module Py.

(** The values [json_loads] produces and [json_dumps] accepts. A dict keeps
    its keys in insertion order. *)
Inductive value : Type :=
| VNone
| VBool (b : bool)
| VInt (z : Z)
| VFloat (q : Q)
| VStr (s : string)
| VList (l : list value)
| VDict (d : list (string * value)).

Definition dict := list (string * value).

Inductive exn : Type :=
| AssertionError (msg : string)
| AttributeError
| TypeError
| IndexError
| KeyError (msg : string)
| ValueError (msg : string)
| RuntimeError (msg : string)
| InvalidDataError (msg : string)
| ActionUnavailable (msg : string)
| UnsupportedFeaturedException
| PlayerCommandFailed
| FileNotFoundError
| JSONDecodeError
| ProviderError (code : nat).

Inductive outcome (A : Type) : Type :=
| Ret (a : A)
| Raise (e : exn).
Arguments Ret {A} a.
Arguments Raise {A} e.

Definition obind {A B} (o : outcome A) (k : A -> outcome B) : outcome B :=
  match o with
  | Ret a => k a
  | Raise e => Raise e
  end.

(** *** Strings *)

(** [s.split(sep)] for a separator of one character: never the empty list. *)
Fixpoint split_on (sep : ascii) (s : string) : list string :=
  match s with
  | EmptyString => [EmptyString]
  | String c s' =>
      if Ascii.eqb c sep then EmptyString :: split_on sep s'
      else match split_on sep s' with
           | [] => [String c EmptyString]
           | w :: ws => String c w :: ws
           end
  end.

Definition is_empty (s : string) : bool :=
  match s with EmptyString => true | String _ _ => false end.

(** [s.startswith(p)] *)
Definition startswith (s p : string) : bool := String.prefix p s.

(** [sub in s] on two strings. *)
Fixpoint occurs (sub s : string) : bool :=
  match s with
  | EmptyString => is_empty sub
  | String _ s' => String.prefix sub s || occurs sub s'
  end.

(** [s.replace(old, new)]: the occurrences of [old] are replaced from left to
    right without overlap; [skip] counts the characters of a match that are
    still to be dropped. *)
Fixpoint replace_from (old new : string) (skip : nat) (s : string) : string :=
  match s with
  | EmptyString => EmptyString
  | String c s' =>
      match skip with
      | S k => replace_from old new k s'
      | O =>
          if String.prefix old s
          then new ++ replace_from old new (String.length old - 1) s'
          else String c (replace_from old new 0 s')
      end
  end.

(** With an empty [old] Python inserts [new] before every character and at
    the end. *)
Fixpoint intersperse (new s : string) : string :=
  match s with
  | EmptyString => new
  | String c s' => new ++ String c (intersperse new s')
  end.

Definition replace (s old new : string) : string :=
  if is_empty old then intersperse new s else replace_from old new 0 s.

(** *** Dicts *)

Fixpoint dict_get (k : string) (d : dict) : option value :=
  match d with
  | [] => None
  | (k', v) :: d' => if String.eqb k k' then Some v else dict_get k d'
  end.

Definition dict_mem (k : string) (d : dict) : bool :=
  match dict_get k d with Some _ => true | None => false end.

(** [d[k] = v]: an existing key keeps its place, a new key goes last. *)
Fixpoint dict_set (k : string) (v : value) (d : dict) : dict :=
  match d with
  | [] => [(k, v)]
  | (k', v') :: d' =>
      if String.eqb k k' then (k', v) :: d' else (k', v') :: dict_set k v d'
  end.

(** [del d[k]] / [d.pop(k)] once the key is known to be present. *)
Fixpoint dict_del (k : string) (d : dict) : dict :=
  match d with
  | [] => []
  | (k', v') :: d' =>
      if String.eqb k k' then dict_del k d' else (k', v') :: dict_del k d'
  end.

(** *** Truth value, [is None] and comparison with a string *)

Definition truthy (v : value) : bool :=
  match v with
  | VNone => false
  | VBool b => b
  | VInt z => negb (Z.eqb z 0)
  | VFloat q => negb (Qeq_bool q 0)
  | VStr s => negb (is_empty s)
  | VList l => match l with [] => false | _ => true end
  | VDict d => match d with [] => false | _ => true end
  end.

Definition is_none (v : value) : bool :=
  match v with VNone => true | _ => false end.

(** [v == s] for a str [s]: only an equal str compares equal. *)
Definition eq_str (v : value) (s : string) : bool :=
  match v with VStr s' => String.eqb s' s | _ => false end.

Definition is_list (v : value) : bool :=
  match v with VList _ => true | _ => false end.

(** *** Object protocol with a str key *)

(** [k in parent] *)
Definition py_contains (k : string) (parent : value) : outcome bool :=
  match parent with
  | VDict d => Ret (dict_mem k d)
  | VList l => Ret (existsb (fun x => eq_str x k) l)
  | VStr s => Ret (occurs k s)
  | _ => Raise TypeError
  end.

(** [parent[k]] *)
Definition py_getitem (parent : value) (k : string) : outcome value :=
  match parent with
  | VDict d =>
      match dict_get k d with
      | Some v => Ret v
      | None => Raise (KeyError k)
      end
  | _ => Raise TypeError
  end.

(** [parent.get(k, default)] *)
Definition py_get (parent : value) (k : string) (default : value)
  : outcome value :=
  match parent with
  | VDict d =>
      match dict_get k d with
      | Some v => Ret v
      | None => Ret default
      end
  | _ => Raise AttributeError
  end.

(** [parent[k] = v], giving the mutated parent. *)
Definition py_setitem (parent : value) (k : string) (v : value)
  : outcome value :=
  match parent with
  | VDict d => Ret (VDict (dict_set k v d))
  | _ => Raise TypeError
  end.

(** [parent.setdefault(k, v)], giving the mutated parent. *)
Definition py_setdefault (parent : value) (k : string) (v : value)
  : outcome value :=
  match parent with
  | VDict d => Ret (if dict_mem k d then parent else VDict (dict_set k v d))
  | _ => Raise AttributeError
  end.

(** [parent.pop(k)], giving the mutated parent. *)
Definition py_pop (parent : value) (k : string) : outcome value :=
  match parent with
  | VDict d => if dict_mem k d then Ret (VDict (dict_del k d))
               else Raise (KeyError k)
  | VList _ => Raise TypeError
  | _ => Raise AttributeError
  end.

(** [del parent[k]], giving the mutated parent. *)
Definition py_delitem (parent : value) (k : string) : outcome value :=
  match parent with
  | VDict d => if dict_mem k d then Ret (VDict (dict_del k d))
               else Raise (KeyError k)
  | _ => Raise TypeError
  end.

(** [parent.pop(k, None)], giving the mutated parent and the popped value. *)
Definition py_pop_default (parent : value) (k : string)
  : outcome (value * value) :=
  match parent with
  | VDict d =>
      match dict_get k d with
      | Some v => Ret (VDict (dict_del k d), v)
      | None => Ret (parent, VNone)
      end
  | VList _ => Raise TypeError
  | _ => Raise AttributeError
  end.

(** [v in names] for a set of str: a list or a dict cannot be hashed. *)
Definition py_in_str_set (v : value) (names : list string) : outcome bool :=
  match v with
  | VStr s => Ret (existsb (String.eqb s) names)
  | VList _ | VDict _ => Raise TypeError
  | _ => Ret false
  end.

(** [for x in v]: the elements a loop over [v] sees. *)
Definition py_iter (v : value) : outcome (list value) :=
  match v with
  | VList l => Ret l
  | VDict d => Ret (map (fun kv => VStr (fst kv)) d)
  | VStr s => Ret (map (fun c => VStr (String c EmptyString))
                       (list_ascii_of_string s))
  | _ => Raise TypeError
  end.

(** [x[i]] on a list. *)
Definition py_index (x : list value) (i : nat) : outcome value :=
  match nth_error x i with
  | Some v => Ret v
  | None => Raise IndexError
  end.

(** [s.split(",")] as a list value; only a str has [split]. *)
Definition py_split_comma (v : value) : outcome value :=
  match v with
  | VStr s => Ret (VList (map VStr (split_on "," s)))
  | _ => Raise AttributeError
  end.

(** [parent.values()] and [parent.items()] *)
Definition py_values (parent : value) : outcome (list value) :=
  match parent with
  | VDict d => Ret (map snd d)
  | _ => Raise AttributeError
  end.

Definition py_items (parent : value) : outcome (list (string * value)) :=
  match parent with
  | VDict d => Ret d
  | _ => Raise AttributeError
  end.

(** The child object has been mutated in place: the parent sees it. *)
Definition write_back (parent : value) (k : string) (child : value) : value :=
  match parent with
  | VDict d => VDict (dict_set k child d)
  | _ => parent
  end.

End Py.
Export Py.

(** ** The host runtime and the model classes the controller works with *)

(** The [ProviderType] enum of music_assistant_models; its members compare
    equal to their string values. *)
Inductive ProviderType : Type := MUSIC | PLAYER | METADATA | PLUGIN.

(** [ProviderType.value] *)
Definition ProviderType_value (t : ProviderType) : string :=
  match t with
  | MUSIC => "music"
  | PLAYER => "player"
  | METADATA => "metadata"
  | PLUGIN => "plugin"
  end.

Definition ProviderType_eqb (a b : ProviderType) : bool :=
  match a, b with
  | MUSIC, MUSIC | PLAYER, PLAYER | METADATA, METADATA | PLUGIN, PLUGIN => true
  | _, _ => false
  end.

(** The fields of a provider manifest the controller reads. *)
Record ProviderManifest : Type := {
  m_domain : string;
  m_name : string;
  m_type : ProviderType;
  m_multi_instance : bool;
  m_depends_on : option string;
  m_builtin : bool;
  m_allow_disable : bool
}.

(** A loaded provider instance; [p_remove_player] says whether
    [ProviderFeature.REMOVE_PLAYER] is among its supported features. *)
Record Provider : Type := {
  p_instance_id : string;
  p_available : bool;
  p_manifest : ProviderManifest;
  p_remove_player : bool
}.

(** A player registered with the player manager. *)
Record Player : Type := {
  pl_player_id : string;
  pl_provider : string;
  pl_available : bool;
  pl_active_group : option string;
  pl_display_name : string;
  pl_group_childs : list string
}.

(** What the controller can observe of [self.mass]. *)
Record Runtime : Type := {
  manifests : list ProviderManifest;
  providers : list Provider;
  players : list Player
}.

(** The fields of a parsed [ProviderConfig] the controller reads. *)
Record ProviderConfig : Type := {
  pc_type : ProviderType;
  pc_domain : string;
  pc_instance_id : string;
  pc_enabled : bool;
  pc_raw : value
}.

(** ** Controller state *)

(** A settings file as [_load] meets it: not there ([FileNotFoundError] on
    open), there with content on which [json_loads] raises one of
    [JSON_DECODE_EXCEPTIONS], or there with the JSON text of a value. *)
Inductive File : Type :=
| NoFile
| Undecodable
| Json (v : value).

(** What the controller does to the outside, in the order it does it: log
    records, the debounce timer, tasks handed to the loop, signalled events. *)
Inductive Event : Type :=
| LogDebug (msg : string)
| LogWarning (msg : string)
| LogException (msg : string)
| TimerCancelled
| TimerArmed (delay : nat)
| TaskCreated
| Signal (event_type object_id : string).

Record State : Type := mkState {
  initialized : bool;
  _data : value;
  _timer_handle : option nat;
  _value_cache : list (string * value);
  file_primary : File;
  file_backup : File;
  mass : Runtime;
  events : list Event
}.

(** The state of a controller right after [__init__]. *)
Definition init_state (primary backup : File) (rt : Runtime) : State :=
  mkState false (VDict []) None [] primary backup rt [].

(** A method: it ends with a result or an exception, in the state it
    reached. *)
Definition M (A : Type) : Type := State -> outcome A * State.

Definition ret {A} (a : A) : M A := fun s => (Ret a, s).
Definition raise {A} (e : exn) : M A := fun s => (Raise e, s).
Definition bind {A B} (m : M A) (k : A -> M B) : M B :=
  fun s => match m s with
           | (Ret a, s') => k a s'
           | (Raise e, s') => (Raise e, s')
           end.
Definition lift {A} (o : outcome A) : M A := fun s => (o, s).
Definition read {A} (f : State -> A) : M A := fun s => (Ret (f s), s).
Definition modify (f : State -> State) : M unit := fun s => (Ret tt, f s).
(** [try: m except Exception: h; raise] *)
Definition on_exception {A} (m : M A) (h : M unit) : M A :=
  fun s => match m s with
           | (Ret a, s') => (Ret a, s')
           | (Raise e, s') =>
               match h s' with
               | (Ret _, s'') => (Raise e, s'')
               | (Raise e', s'') => (Raise e', s'')
               end
           end.

Declare Scope py_scope.
Delimit Scope py_scope with py.
Notation "x <- m ;; k" := (bind m (fun x => k))
  (at level 61, m at next level, right associativity) : py_scope.
Notation "m ;; k" := (bind m (fun _ => k))
  (at level 61, right associativity) : py_scope.
Local Open Scope py_scope.

(** [for x in xs: body x] *)
Fixpoint for_each {A} (xs : list A) (body : A -> M unit) : M unit :=
  match xs with
  | [] => ret tt
  | x :: xs' => body x ;; for_each xs' body
  end.

Definition emit (e : Event) : M unit :=
  modify (fun s => mkState (initialized s) (_data s) (_timer_handle s)
                     (_value_cache s) (file_primary s) (file_backup s)
                     (mass s) (events s ++ [e])).

Definition set_data (d : value) : M unit :=
  modify (fun s => mkState (initialized s) d (_timer_handle s)
                     (_value_cache s) (file_primary s) (file_backup s)
                     (mass s) (events s)).

Definition set_timer_handle (h : option nat) : M unit :=
  modify (fun s => mkState (initialized s) (_data s) h
                     (_value_cache s) (file_primary s) (file_backup s)
                     (mass s) (events s)).

Definition set_value_cache (c : list (string * value)) : M unit :=
  modify (fun s => mkState (initialized s) (_data s) (_timer_handle s)
                     c (file_primary s) (file_backup s)
                     (mass s) (events s)).

Definition set_files (primary backup : File) : M unit :=
  modify (fun s => mkState (initialized s) (_data s) (_timer_handle s)
                     (_value_cache s) primary backup
                     (mass s) (events s)).

Definition set_initialized (b : bool) : M unit :=
  modify (fun s => mkState b (_data s) (_timer_handle s)
                     (_value_cache s) (file_primary s) (file_backup s)
                     (mass s) (events s)).

(** [assert self.initialized, "Not yet (async) initialized"] *)
Definition assert_initialized : M unit :=
  fun s => if initialized s then (Ret tt, s)
           else (Raise (AssertionError "Not yet (async) initialized"), s).

(** ** Constants *)

(** Modelled from the spec: [music_assistant/constants.py] is not among the
    sources. These are the fixed top-level path segments under which the
    entities are stored (providers, players, player DSP), the top-level
    onboarding flag, and the option name the migration moves. *)
Definition CONF_PROVIDERS : string := "providers".
Definition CONF_PLAYERS : string := "players".
Definition CONF_PLAYER_DSP : string := "player_dsp".
Definition CONF_ONBOARD_DONE : string := "onboard_done".
Definition CONF_OUTPUT_LIMITER : string := "output_limiter".

Definition DEFAULT_SAVE_DELAY : nat := 5.

(** ** The path store *)

Definition subkeys_of (key : string) : list string := split_on "/" key.

(** The loop of [get] over [subkeys], from [parent] on. *)
Fixpoint get_walk (parent : value) (subkeys : list string) (default : value)
  : outcome value :=
  match subkeys with
  | [] => Ret default
  | subkey :: rest =>
      match rest with
      | [] =>
          obind (py_get parent subkey default) (fun value =>
          if is_none value then Ret default else Ret value)
      | _ :: _ =>
          obind (py_contains subkey parent) (fun present =>
          if negb present then Ret default
          else obind (py_getitem parent subkey) (fun child =>
               get_walk child rest default))
      end
  end.

Definition get (key : string) (default : value) : M value :=
  assert_initialized ;;
  d <- read _data ;;
  lift (get_walk d (subkeys_of key) default).

(** The loop of [set]: the mutated [parent], and the exception if one was
    raised on the way. *)
Fixpoint set_walk (parent : value) (subkeys : list string) (v : value)
  : value * option exn :=
  match subkeys with
  | [] => (parent, None)
  | subkey :: rest =>
      match rest with
      | [] =>
          match py_setitem parent subkey v with
          | Ret parent' => (parent', None)
          | Raise e => (parent, Some e)
          end
      | _ :: _ =>
          match py_setdefault parent subkey (VDict []) with
          | Raise e => (parent, Some e)
          | Ret parent1 =>
              match py_getitem parent1 subkey with
              | Raise e => (parent1, Some e)
              | Ret child =>
                  let (child', r) := set_walk child rest v in
                  (write_back parent1 subkey child', r)
              end
          end
      end
  end.

(** [save(immediate)] *)
Definition save (immediate : bool) : M unit :=
  set_value_cache [] ;;
  h <- read _timer_handle ;;
  match h with
  | Some _ => emit TimerCancelled ;; set_timer_handle None
  | None => ret tt
  end ;;
  if immediate then emit TaskCreated
  else emit (TimerArmed DEFAULT_SAVE_DELAY) ;;
       set_timer_handle (Some DEFAULT_SAVE_DELAY).

Definition set (key : string) (v : value) : M unit :=
  assert_initialized ;;
  d <- read _data ;;
  match set_walk d (subkeys_of key) v with
  | (d', Some e) => set_data d' ;; raise e
  | (d', None) => set_data d' ;; save false
  end.

Definition MISSING : value := VStr "__MISSING__".

Definition set_default (key : string) (default_value : value) : M unit :=
  assert_initialized ;;
  cur_value <- get key MISSING ;;
  if eq_str cur_value "__MISSING__" then set key default_value
  else ret tt.

(** The loop of [remove]: the mutated [parent], and whether the loop ran to
    its end ([true]) or returned early ([false]). *)
Fixpoint remove_walk (parent : value) (subkeys : list string)
  : value * outcome bool :=
  match subkeys with
  | [] => (parent, Ret true)
  | subkey :: rest =>
      match py_contains subkey parent with
      | Raise e => (parent, Raise e)
      | Ret false => (parent, Ret false)
      | Ret true =>
          match rest with
          | [] =>
              match py_pop parent subkey with
              | Ret parent' => (parent', Ret true)
              | Raise e => (parent, Raise e)
              end
          | _ :: _ =>
              match py_setdefault parent subkey (VDict []) with
              | Raise e => (parent, Raise e)
              | Ret parent1 =>
                  match py_getitem parent1 subkey with
                  | Raise e => (parent1, Raise e)
                  | Ret child =>
                      let (child', r) := remove_walk child rest in
                      (write_back parent1 subkey child', r)
                  end
              end
          end
      end
  end.

Definition remove (key : string) : M unit :=
  assert_initialized ;;
  d <- read _data ;;
  match remove_walk d (subkeys_of key) with
  | (d', Raise e) => set_data d' ;; raise e
  | (d', Ret false) => set_data d'
  | (d', Ret true) => set_data d' ;; save false
  end.

(** The [onboard_done] property. *)
Definition onboard_done : M value := get CONF_ONBOARD_DONE (VBool false).

(** The value stored at a path of dict keys, when every segment is there. *)
Fixpoint lookup_path (parent : value) (path : list string) : option value :=
  match path with
  | [] => Some parent
  | k :: rest =>
      match parent with
      | VDict d =>
          match dict_get k d with
          | Some child => lookup_path child rest
          | None => None
          end
      | _ => None
      end
  end.

Definition is_dict (v : value) : bool :=
  match v with VDict _ => true | _ => false end.

(** The object stored at [path] under [parent] has been mutated in place
    into [obj]: every dict on the way sees it. *)
Fixpoint write_back_at (parent : value) (path : list string) (obj : value)
  : value :=
  match path with
  | [] => obj
  | k :: rest =>
      match py_getitem parent k with
      | Ret child => write_back parent k (write_back_at child rest obj)
      | Raise _ => parent
      end
  end.

(** [get] hands out the stored object itself, not a copy, when its walk ends
    on a value other than None, and the caller's default otherwise: the place
    in [d] of what [get] returned for [path], when it is a stored object. *)
Definition stored_at (d : value) (path : list string) : option (list string) :=
  match lookup_path d path with
  | Some v => if is_none v then None else Some path
  | None => None
  end.


Definition empty_runtime : Runtime :=
  {| manifests := []; providers := []; players := [] |}.

(** A loaded controller holding [d], nothing pending. *)
Definition loaded (d : value) (rt : Runtime) : State :=
  mkState true d None [] NoFile NoFile rt [].


(** ** The secret cipher *)

Section Cipher.

(** [ENCRYPT_SUFFIX] comes from [music_assistant/constants.py] and Fernet
    from the cryptography package: neither is among the sources. A Fernet
    token depends on the clock and on a random IV, the [Entropy] of a call;
    [fernet_decrypt] gives [None] where Fernet raises [InvalidToken]. *)
Variable ENCRYPT_SUFFIX : string.
Variables Fernet Entropy : Type.
Variable fernet_encrypt : Fernet -> Entropy -> string -> string.
Variable fernet_decrypt : Fernet -> string -> option string.

Definition encrypt_string (_fernet : option Fernet) (entropy : Entropy)
  (str_value : string) : outcome string :=
  if startswith str_value ENCRYPT_SUFFIX then Ret str_value
  else match _fernet with
       | None => Raise AttributeError
       | Some f =>
           Ret (ENCRYPT_SUFFIX ++ fernet_encrypt f entropy str_value)%string
       end.

Definition decrypt_string (_fernet : option Fernet) (encrypted_str : string)
  : outcome string :=
  if is_empty encrypted_str then Ret encrypted_str
  else if negb (startswith encrypted_str ENCRYPT_SUFFIX) then Ret encrypted_str
  else match _fernet with
       | None => Raise AttributeError
       | Some f =>
           match fernet_decrypt f (replace encrypted_str ENCRYPT_SUFFIX "") with
           | Some plain => Ret plain
           | None => Raise (InvalidDataError "Password decryption failed")
           end
       end.

End Cipher.
Arguments encrypt_string ENCRYPT_SUFFIX {Fernet Entropy} fernet_encrypt
  _fernet entropy str_value.
Arguments decrypt_string ENCRYPT_SUFFIX {Fernet} fernet_decrypt
  _fernet encrypted_str.

(** ** Persistence *)

Definition is_file (f : File) : bool :=
  match f with NoFile => false | _ => true end.

(** [_async_save]: the primary file, when there is one, becomes the backup;
    then the whole tree is written to the primary file. *)
Definition _async_save : M unit :=
  primary <- read file_primary ;;
  backup <- read file_backup ;;
  (if is_file primary then
     (if is_file backup then set_files primary NoFile else ret tt) ;;
     set_files NoFile primary
   else ret tt) ;;
  backup' <- read file_backup ;;
  d <- read _data ;;
  set_files (Json d) backup' ;;
  emit (LogDebug "Saved data to persistent storage").

(** [try: m except FileNotFoundError: pass except JSON_DECODE_EXCEPTIONS:
    LOGGER.exception(...)]; the result tells whether [m] returned. *)
Definition try_file (m : M unit) : M bool :=
  fun s => match m s with
           | (Ret _, s') => (Ret true, s')
           | (Raise FileNotFoundError, s') => (Ret false, s')
           | (Raise JSONDecodeError, s') =>
               bind (emit (LogException
                             "Error while reading persistent storage file %s"))
                    (fun _ => ret false) s'
           | (Raise e, s') => (Raise e, s')
           end.

(** [aiofiles.open(filename)] followed by [json_loads(await _file.read())] *)
Definition read_json (f : File) : M value :=
  match f with
  | NoFile => raise FileNotFoundError
  | Undecodable => raise JSONDecodeError
  | Json v => ret v
  end.

(** ** The controller *)

(** What the controller calls but does not define: the host ([self.mass]
    with its player and music controllers and the loaded provider modules),
    the classes of music_assistant_models, shortuuid, and [str()] on values
    that are not str, int, bool or None. Queries read the state; hooks may
    change it and may raise. [get_config_entries] of a provider module is
    handed the [values] dict itself and may write into it (lastfm_scrobble
    does): beside its outcome it gives that dict as the call left it. *)
Record Host {ConfigEntry : Type} : Type := {
  get_provider : Runtime -> value -> outcome (option Provider);
  get_provider_manifest : Runtime -> value -> outcome ProviderManifest;
  players_all : Runtime -> list Player;
  players_get : Runtime -> string -> option Player;
  load_provider_module : ProviderManifest -> State -> outcome unit;
  get_config_entries :
    ProviderManifest -> option string -> option string -> value ->
    State -> outcome (list ConfigEntry) * value;
  load_provider_config : ProviderConfig -> M unit;
  unload_provider : string -> bool -> M unit;
  music_cleanup_provider : string -> M unit;
  music_start_sync : list string -> M unit;
  players_remove : string -> bool -> M unit;
  remove_player : Provider -> string -> M unit;
  set_members : Provider -> string -> list string -> M unit;
  shortuuid_random : nat -> State -> string;
  ProviderConfig_parse : list ConfigEntry -> value -> outcome ProviderConfig;
  ProviderConfig_update :
    ProviderConfig -> value -> outcome (ProviderConfig * list string);
  ProviderConfig_validate : ProviderConfig -> outcome unit;
  ProviderConfig_to_raw : ProviderConfig -> value;
  DEFAULT_PROVIDER_CONFIG_ENTRIES : list ConfigEntry;
  MULTI_VALUE_SPLITTER : string;
  str_other : value -> string
}.
Arguments Host ConfigEntry : clear implicits.

Section Controller.

Context {ConfigEntry : Type} (host : Host ConfigEntry).

(** [str(v)], as an f-string formats [v]. *)
Definition py_str (v : value) : string :=
  match v with
  | VStr s => s
  | VNone => "None"
  | VBool true => "True"
  | VBool false => "False"
  | VInt z => NilZero.string_of_int (Z.to_int z)
  | _ => str_other host v
  end.

Definition find_manifest (domain : value) (ms : list ProviderManifest)
  : option ProviderManifest :=
  find (fun prov => eq_str domain (m_domain prov)) ms.

(** The call of the provider module's [get_config_entries] on the dict
    [values]. [values_at] is the place of that dict in [self._data] when it
    is a stored one: what the call wrote into it is then in the tree, also
    when the call raises. The result carries the dict as the call left it. *)
Definition resolve_entries (prov : ProviderManifest)
  (instance_id action : option string) (values : value)
  (values_at : option (list string)) : M (list ConfigEntry * value) :=
  fun s =>
    let (r, values') :=
      get_config_entries host prov instance_id action values s in
    let s' := match values_at with
              | Some path =>
                  snd (set_data (write_back_at (_data s) path values') s)
              | None => s
              end in
    match r with
    | Ret entries => (Ret (entries, values'), s')
    | Raise e => (Raise e, s')
    end.

(** [values_at] says where the caller's [values] lives when it is a dict of
    the tree ([None] for a dict of the caller's own). The second component
    of the result is the caller's [values] after the call: the dict as the
    provider module left it, or None as before. *)
Definition get_provider_config_entries (provider_domain : value)
  (instance_id action : option string) (values : value)
  (values_at : option (list string)) : M (list ConfigEntry * value) :=
  ms <- read (fun s => manifests (mass s)) ;;
  match find_manifest provider_domain ms with
  | None =>
      raise (KeyError ("Unknown provider domain: " ++ py_str provider_domain))
  | Some prov =>
      (fun s => (load_provider_module host prov s, s)) ;;
      if is_none values then
        arg <- match instance_id with
               | Some i =>
                   if is_empty i then ret (VDict [], None)
                   else
                     let key :=
                       (CONF_PROVIDERS ++ "/" ++ i ++ "/values")%string in
                     v <- get key (VDict []) ;;
                     d <- read _data ;;
                     ret (v, stored_at d (subkeys_of key))
               | None => ret (VDict [], None)
               end ;;
        r <- resolve_entries prov instance_id action (fst arg) (snd arg) ;;
        ret (fst r ++ DEFAULT_PROVIDER_CONFIG_ENTRIES host, values)
      else
        r <- resolve_entries prov instance_id action values values_at ;;
        ret (fst r ++ DEFAULT_PROVIDER_CONFIG_ENTRIES host, snd r)
  end.

(** [raw_conf], when truthy, is the dict stored at the key and
    [raw_conf.get("values")] its child: the provider module is handed the
    stored [values], and [ProviderConfig.parse] sees [raw_conf] with what the
    module wrote into them. *)
Definition get_provider_config (instance_id : string) : M ProviderConfig :=
  let conf_key := (CONF_PROVIDERS ++ "/" ++ instance_id)%string in
  raw_conf <- get conf_key (VDict []) ;;
  if truthy raw_conf then
    domain <- lift (py_getitem raw_conf "domain") ;;
    values <- lift (py_get raw_conf "values" VNone) ;;
    r <- get_provider_config_entries domain (Some instance_id) None values
           (Some (subkeys_of conf_key ++ ["values"])) ;;
    let config_entries := fst r in
    let raw_conf := if is_none values then raw_conf
                    else write_back raw_conf "values" (snd r) in
    ms <- read (fun s => manifests (mass s)) ;;
    match find_manifest domain ms with
    | Some _ => lift (ProviderConfig_parse host config_entries raw_conf)
    | None =>
        raise (KeyError ("Unknown provider domain: " ++ py_str domain))
    end
  else
    raise (KeyError ("No config found for provider id " ++ instance_id)).

(** The list comprehension of [get_provider_configs]: the three tests on a
    stored entry, then the element. *)
Definition provider_configs_item (provider_type : option ProviderType)
  (provider_domain : option string) (include_values : bool)
  (prov_entries : list string) (prov_conf : value)
  : M (option ProviderConfig) :=
  type_ok <- match provider_type with
             | None => ret true
             | Some t =>
                 ty <- lift (py_getitem prov_conf "type") ;;
                 ret (eq_str ty (ProviderType_value t))
             end ;;
  if negb type_ok then ret None else
  domain_ok <- match provider_domain with
               | None => ret true
               | Some dom =>
                   dv <- lift (py_getitem prov_conf "domain") ;;
                   ret (eq_str dv dom)
               end ;;
  if negb domain_ok then ret None else
  dv <- lift (py_getitem prov_conf "domain") ;;
  known <- lift (py_in_str_set dv prov_entries) ;;
  if negb known then ret None else
  if include_values then
    iid <- lift (py_getitem prov_conf "instance_id") ;;
    c <- get_provider_config (py_str iid) ;;
    ret (Some c)
  else
    c <- lift (ProviderConfig_parse host [] prov_conf) ;;
    ret (Some c).

Fixpoint collect {A B} (xs : list A) (f : A -> M (option B)) : M (list B) :=
  match xs with
  | [] => ret []
  | x :: xs' =>
      o <- f x ;;
      r <- collect xs' f ;;
      ret (match o with Some b => b :: r | None => r end)
  end.

Definition get_provider_configs (provider_type : option ProviderType)
  (provider_domain : option string) (include_values : bool)
  : M (list ProviderConfig) :=
  raw_values <- get CONF_PROVIDERS (VDict []) ;;
  ms <- read (fun s => manifests (mass s)) ;;
  prov_confs <- lift (py_values raw_values) ;;
  collect prov_confs
    (provider_configs_item provider_type provider_domain include_values
       (map m_domain ms)).

Definition option_truthy (o : option string) : bool :=
  match o with Some s => negb (is_empty s) | None => false end.

Definition _add_provider_config (provider_domain : string) (values : value)
  : M ProviderConfig :=
  ms <- read (fun s => manifests (mass s)) ;;
  match find_manifest (VStr provider_domain) ms with
  | None => raise (KeyError ("Unknown provider domain: " ++ provider_domain))
  | Some manifest =>
      dep_ok <-
        (if option_truthy (m_depends_on manifest) then
           rt <- read mass ;;
           p <- lift (get_provider host rt
                        (match m_depends_on manifest with
                         | Some d => VStr d
                         | None => VNone
                         end)) ;;
           ret (match p with Some _ => true | None => false end)
         else ret true) ;;
      if negb dep_ok then
        raise (ValueError ("Provider " ++ m_name manifest ++ " depends on "
                           ++ match m_depends_on manifest with
                              | Some d => d
                              | None => "None"
                              end))
      else
      existing <- get_provider_configs None (Some provider_domain) false ;;
      if match existing with [] => false | _ => true end
         && negb (m_multi_instance manifest)
      then raise (ValueError ("Provider " ++ m_name manifest
                              ++ " does not support multiple instances"))
      else
      suffix <- read (shortuuid_random host 8) ;;
      let instance_id :=
        if m_multi_instance manifest
        then (m_domain manifest ++ "--" ++ suffix)%string
        else m_domain manifest in
      r <- get_provider_config_entries (VStr provider_domain)
             (Some instance_id) None values None ;;
      let config_entries := fst r in
      let values := snd r in
      config <- lift (ProviderConfig_parse host config_entries
                        (VDict [("type",
                                 VStr (ProviderType_value (m_type manifest)));
                                ("domain", VStr (m_domain manifest));
                                ("instance_id", VStr instance_id);
                                ("default_name", VStr (m_name manifest));
                                ("values", values)])) ;;
      lift (ProviderConfig_validate host config) ;;
      let conf_key := (CONF_PROVIDERS ++ "/" ++ pc_instance_id config)%string in
      set conf_key (ProviderConfig_to_raw host config) ;;
      on_exception (load_provider_config host config) (remove conf_key) ;;
      (if ProviderType_eqb (m_type manifest) MUSIC
       then music_start_sync host [pc_instance_id config]
       else ret tt) ;;
      ret config
  end.

Definition _update_provider_config (instance_id : string) (values : value)
  : M ProviderConfig :=
  config <- get_provider_config instance_id ;;
  upd <- lift (ProviderConfig_update host config values) ;;
  let (config, changed_keys) := upd : ProviderConfig * list string in
  rt <- read mass ;;
  prov <- lift (get_provider host rt (VStr instance_id)) ;;
  let available := match prov with
                   | Some p => p_available p
                   | None => false
                   end in
  if match changed_keys with [] => true | _ => false end
     && Bool.eqb (pc_enabled config) available
  then ret config
  else
    lift (ProviderConfig_validate host config) ;;
    let conf_key := (CONF_PROVIDERS ++ "/" ++ pc_instance_id config)%string in
    let raw_conf := ProviderConfig_to_raw host config in
    set conf_key raw_conf ;;
    (if pc_enabled config then load_provider_config host config
     else
       rt <- read mass ;;
       prov_manifest <-
         lift (get_provider_manifest host rt (VStr (pc_domain config))) ;;
       if negb (m_allow_disable prov_manifest)
       then raise (RuntimeError "Provider can not be disabled.")
       else
         rt <- read mass ;;
         for_each (providers rt) (fun dep_prov =>
           match m_depends_on (p_manifest dep_prov) with
           | Some d =>
               if String.eqb d (pc_domain config)
               then unload_provider host (p_instance_id dep_prov) false
               else ret tt
           | None => ret tt
           end) ;;
         unload_provider host (pc_instance_id config) false ;;
         if ProviderType_eqb (pc_type config) PLAYER then
           rt <- read mass ;;
           for_each (players_all host rt) (fun player =>
             if negb (String.eqb (pl_provider player) instance_id)
             then ret tt
             else players_remove host (pl_player_id player) false)
         else ret tt) ;;
    ret config.

Definition save_provider_config (provider_domain : string) (values : value)
  (instance_id : option string) : M ProviderConfig :=
  config <- match instance_id with
            | Some i => _update_provider_config i values
            | None => _add_provider_config provider_domain values
            end ;;
  set CONF_ONBOARD_DONE (VBool true) ;;
  get_provider_config (pc_instance_id config).

Definition remove_provider_config (instance_id : string) : M unit :=
  let conf_key := (CONF_PROVIDERS ++ "/" ++ instance_id)%string in
  existing <- get conf_key VNone ;;
  if negb (truthy existing)
  then raise (KeyError ("Provider " ++ instance_id ++ " does not exist"))
  else
    domain <- lift (py_getitem existing "domain") ;;
    rt <- read mass ;;
    prov_manifest <- lift (get_provider_manifest host rt domain) ;;
    if m_builtin prov_manifest
    then raise (RuntimeError ("Builtin provider " ++ m_name prov_manifest
                              ++ " can not be removed."))
    else
      remove conf_key ;;
      unload_provider host instance_id true ;;
      ty <- lift (py_getitem existing "type") ;;
      (if eq_str ty "music" then music_cleanup_provider host instance_id
       else ret tt) ;;
      ty <- lift (py_getitem existing "type") ;;
      if eq_str ty "player" then
        rt <- read mass ;;
        for_each (players rt) (fun player =>
          if negb (String.eqb (pl_provider player) instance_id)
          then ret tt
          else players_remove host (pl_player_id player) true) ;;
        player_confs <- get CONF_PLAYERS (VDict []) ;;
        confs <- lift (py_values player_confs) ;;
        for_each confs (fun player_conf =>
          prov <- lift (py_getitem player_conf "provider") ;;
          if eq_str prov instance_id then
            pid <- lift (py_getitem player_conf "player_id") ;;
            remove (CONF_PLAYERS ++ "/" ++ py_str pid)
          else ret tt)
      else ret tt.

(** [with suppress(UnsupportedFeaturedException, PlayerCommandFailed): m] *)
Definition suppress_player_errors (m : M unit) : M unit :=
  fun s => match m s with
           | (Raise UnsupportedFeaturedException, s')
           | (Raise PlayerCommandFailed, s') => (Ret tt, s')
           | r => r
           end.

Definition remove_player_config (player_id : string) : M unit :=
  let conf_key := (CONF_PLAYERS ++ "/" ++ player_id)%string in
  let dsp_conf_key := (CONF_PLAYER_DSP ++ "/" ++ player_id)%string in
  existing <- get conf_key VNone ;;
  if negb (truthy existing)
  then raise (KeyError ("Player configuration for " ++ player_id
                        ++ " does not exist"))
  else
    rt <- read mass ;;
    let player := players_get host rt player_id in
    player_prov <- match player with
                   | Some p => ret (VStr (pl_provider p))
                   | None => lift (py_getitem existing "provider")
                   end ;;
    player_provider <- lift (get_provider host rt player_prov) ;;
    match player_provider, player with
    | Some prov, _ =>
        if p_remove_player prov then remove_player host prov player_id
        else match player with
             | Some p =>
                 if pl_available p
                 then raise (ActionUnavailable
                               "Can not remove config for an active player!")
                 else ret tt
             | None => ret tt
             end
    | None, _ => ret tt
    end ;;
    match player, player_provider with
    | Some p, Some prov =>
        if option_truthy (pl_active_group p) then
          let group := match pl_active_group p with
                       | Some g => g
                       | None => EmptyString
                       end in
          rt <- read mass ;;
          suppress_player_errors
            (match players_get host rt group with
             | None => raise AttributeError
             | Some group_player =>
                 set_members host prov group
                   (filter (fun x => negb (String.eqb x (pl_player_id p)))
                           (pl_group_childs group_player))
             end)
        else ret tt
    | _, _ => ret tt
    end ;;
    players_remove host player_id false ;;
    remove conf_key ;;
    remove dsp_conf_key.

(** ** Migration *)

(** [for x in xs: ... changed = True ...]: whether some round set the flag. *)
Fixpoint for_changed {A} (xs : list A) (body : A -> M bool) : M bool :=
  match xs with
  | [] => ret false
  | x :: xs' =>
      b <- body x ;;
      bs <- for_changed xs' body ;;
      ret (b || bs)
  end.

(** [list(self._data.get(section, {}).items())] *)
Definition section_items (section : string) : M (list (string * value)) :=
  d <- read _data ;;
  sect <- lift (py_get d section (VDict [])) ;;
  lift (py_items sect).

(** The object stored as [self._data[section][key]] has been mutated in
    place into [obj]. *)
Definition store_entry (section key : string) (obj : value) : M unit :=
  d <- read _data ;;
  match py_getitem d section with
  | Ret sect => set_data (write_back d section (write_back sect key obj))
  | Raise _ => ret tt
  end.

(** A loop over the entries of a section whose body mutates the entry it is
    given: [body] gives the entry as the round left it, and whether the
    round set [changed] or raised. *)
Definition for_entries (section : string)
  (body : value -> value * outcome bool) : M bool :=
  items <- section_items section ;;
  for_changed items (fun kv =>
    let (obj', r) := body (snd kv) in
    store_entry section (fst kv) obj' ;;
    lift r).

(** Removal of the provider entries without a domain. *)
Definition migrate_corrupt : M bool :=
  items <- section_items CONF_PROVIDERS ;;
  for_changed items (fun kv =>
    has_domain <- lift (py_contains "domain" (snd kv)) ;;
    if negb has_domain then
      d <- read _data ;;
      provs <- lift (py_getitem d CONF_PROVIDERS) ;;
      popped <- lift (py_pop_default provs (fst kv)) ;;
      set_data (write_back d CONF_PROVIDERS (fst popped)) ;;
      emit (LogWarning "Removed corrupt provider configuration: %s") ;;
      ret true
    else ret false).

(** [manual_ips] to the new format. *)
Definition migrate_ips (provider_config : value) : value * outcome bool :=
  match py_get provider_config "values" VNone with
  | Raise e => (provider_config, Raise e)
  | Ret values =>
      if negb (truthy values) then (provider_config, Ret false) else
      match py_get values "ips" VNone with
      | Raise e => (provider_config, Raise e)
      | Ret ips =>
          if negb (truthy ips) then (provider_config, Ret false) else
          match py_split_comma ips with
          | Raise e => (provider_config, Raise e)
          | Ret parts =>
              match obind (py_setitem values "manual_discovery_ip_addresses"
                             parts)
                          (fun values1 => py_delitem values1 "ips") with
              | Raise e => (provider_config, Raise e)
              | Ret values2 =>
                  (write_back provider_config "values" values2, Ret true)
              end
          end
      end
  end.

(** One element of the new [sample_rates] list. *)
Definition join_sample_rate (x : value) : outcome value :=
  match x with
  | VList l =>
      obind (py_index l 0) (fun a =>
      obind (py_index l 1) (fun b =>
      Ret (VStr (py_str a ++ MULTI_VALUE_SPLITTER host ++ py_str b))))
  | _ => Ret x
  end.

Fixpoint map_outcome {A B} (f : A -> outcome B) (xs : list A)
  : outcome (list B) :=
  match xs with
  | [] => Ret []
  | x :: xs' =>
      obind (f x) (fun y => obind (map_outcome f xs') (fun ys => Ret (y :: ys)))
  end.

(** The [sample_rates] config entry. *)
Definition migrate_sample_rates (player_config : value)
  : value * outcome bool :=
  match py_get player_config "values" VNone with
  | Raise e => (player_config, Raise e)
  | Ret values =>
      if negb (truthy values) then (player_config, Ret false) else
      match py_get values "sample_rates" VNone with
      | Raise e => (player_config, Raise e)
      | Ret sample_rates =>
          if negb (truthy sample_rates) then (player_config, Ret false) else
          let deleted :=
            if is_list sample_rates then Ret player_config
            else obind (py_getitem player_config "values") (fun vals =>
                 obind (py_delitem vals "sample_rates") (fun vals' =>
                 Ret (write_back player_config "values" vals'))) in
          match deleted with
          | Raise e => (player_config, Raise e)
          | Ret player_config1 =>
              match py_iter sample_rates with
              | Raise e => (player_config1, Raise e)
              | Ret xs =>
                  if negb (existsb is_list xs)
                  then (player_config1, Ret false)
                  else
                    match map_outcome join_sample_rate xs with
                    | Raise e => (player_config1, Raise e)
                    | Ret joined =>
                        match obind (py_getitem player_config1 "values")
                                (fun vals =>
                                 py_setitem vals "sample_rates" (VList joined))
                        with
                        | Raise e => (player_config1, Raise e)
                        | Ret vals' =>
                            (write_back player_config1 "values" vals',
                             Ret true)
                        end
                    end
              end
          end
      end
  end.

(** [DSPConfig.output_limiter], moved to the player config. *)
Definition migrate_output_limiter : M bool :=
  items <- section_items CONF_PLAYER_DSP ;;
  for_changed items (fun kv =>
    let player_id := fst kv in
    let dsp_config := snd kv in
    output_limiter <- lift (py_get dsp_config "output_limiter" VNone) ;;
    enabled <- lift (py_get dsp_config "enabled" VNone) ;;
    if is_none output_limiter || is_none enabled || truthy output_limiter
    then ret false
    else
      (if truthy enabled then
         d <- read _data ;;
         players <- lift (py_get d CONF_PLAYERS VNone) ;;
         if truthy players then
           player <- lift (py_get players player_id VNone) ;;
           if truthy player then
             values <- lift (py_getitem player "values") ;;
             values' <- lift (py_setitem values CONF_OUTPUT_LIMITER
                                (VBool false)) ;;
             store_entry CONF_PLAYERS player_id
               (write_back player "values" values')
           else ret tt
         else ret tt
       else ret tt) ;;
      dsp_config' <- lift (py_delitem dsp_config "output_limiter") ;;
      store_entry CONF_PLAYER_DSP player_id dsp_config' ;;
      ret true).

(** The loop that sets [onboard_done], left at the first hit. *)
Fixpoint onboard_scan (default_providers : list string)
  (provider_configs : list value) : M bool :=
  match provider_configs with
  | [] => ret false
  | provider_config :: rest =>
      domain <- lift (py_getitem provider_config "domain") ;;
      known <- lift (py_in_str_set domain default_providers) ;;
      if negb known then
        d <- read _data ;;
        d' <- lift (py_setitem d CONF_ONBOARD_DONE (VBool true)) ;;
        set_data d' ;;
        ret true
      else onboard_scan default_providers rest
  end.

Definition migrate_onboard_done : M bool :=
  d <- read _data ;;
  flag <- lift (py_get d CONF_ONBOARD_DONE VNone) ;;
  if is_none flag then
    ms <- read (fun s => manifests (mass s)) ;;
    let default_providers := map m_domain (filter m_builtin ms) in
    provs <- lift (py_get d CONF_PROVIDERS (VDict [])) ;;
    confs <- lift (py_values provs) ;;
    onboard_scan default_providers confs
  else ret false.

(** slimproto becomes squeezelite. *)
Definition migrate_slimproto : M bool :=
  items <- section_items CONF_PROVIDERS ;;
  for_changed items (fun kv =>
    let instance_id := fst kv in
    let provider_config := snd kv in
    domain <- lift (py_get provider_config "domain" VNone) ;;
    if eq_str domain "slimproto" then
      d <- read _data ;;
      provs <- lift (py_getitem d CONF_PROVIDERS) ;;
      provs1 <- lift (py_delitem provs instance_id) ;;
      set_data (write_back d CONF_PROVIDERS provs1) ;;
      let new_instance_id := replace instance_id "slimproto" "squeezelite" in
      pc1 <- lift (py_setitem provider_config "instance_id"
                     (VStr new_instance_id)) ;;
      pc2 <- lift (py_setitem pc1 "domain" (VStr "squeezelite")) ;;
      d <- read _data ;;
      provs <- lift (py_getitem d CONF_PROVIDERS) ;;
      provs2 <- lift (py_setitem provs new_instance_id pc2) ;;
      set_data (write_back d CONF_PROVIDERS provs2) ;;
      ret true
    else ret false).

(** ["hide_player"] becomes ["hide_player_in_ui"]. *)
Definition migrate_hide_player (player_config : value)
  : value * outcome bool :=
  match py_get player_config "values" VNone with
  | Raise e => (player_config, Raise e)
  | Ret values =>
      if negb (truthy values) then (player_config, Ret false) else
      match py_pop_default values "hide_player" with
      | Raise e => (player_config, Raise e)
      | Ret (values1, hidden) =>
          let player_config1 := write_back player_config "values" values1 in
          if truthy hidden then
            match obind (py_getitem player_config1 "values") (fun vals =>
                         py_setitem vals "hide_player_in_ui"
                           (VList [VStr "always"])) with
            | Raise e => (player_config1, Raise e)
            | Ret vals' =>
                (write_back player_config1 "values" vals', Ret true)
            end
          else (player_config1, Ret true)
      end
  end.

Definition _migrate : M unit :=
  c1 <- migrate_corrupt ;;
  c2 <- for_entries CONF_PROVIDERS migrate_ips ;;
  c3 <- for_entries CONF_PLAYERS migrate_sample_rates ;;
  c4 <- migrate_output_limiter ;;
  c5 <- migrate_onboard_done ;;
  c6 <- migrate_slimproto ;;
  c7 <- for_entries CONF_PLAYERS migrate_hide_player ;;
  if c1 || c2 || c3 || c4 || c5 || c6 || c7 then _async_save else ret tt.

(** ** Load *)

Definition load_from (pick : State -> File) : M bool :=
  try_file (f <- read pick ;;
            v <- read_json f ;;
            set_data v ;;
            emit (LogDebug "Loaded persistent settings from %s") ;;
            _migrate).

Definition _load : M unit :=
  d <- read _data ;;
  if truthy d then raise (AssertionError "Already loaded") else
  loaded_primary <- load_from file_primary ;;
  if loaded_primary then ret tt else
  loaded_backup <- load_from file_backup ;;
  if loaded_backup then ret tt else
  emit (LogDebug
          "Started with empty storage: No persistent storage file found.").

End Controller.

(** ** Vocabulary of the statements *)

(** Every segment of the path that is there, the last one apart, is a dict:
    [get] and [remove] walk such a path without raising. *)
Fixpoint walkable (parent : value) (path : list string) : bool :=
  match path with
  | [] => true
  | k :: rest =>
      match parent with
      | VDict d =>
          match dict_get k d with
          | Some child => walkable child rest
          | None => true
          end
      | _ => false
      end
  end.

(** The first half of [_add_provider_config], up to and including
    [config.validate()]: the manifest found and the config built. *)
Definition new_provider_config {ConfigEntry} (host : Host ConfigEntry)
  (provider_domain : string) (values : value)
  : M (ProviderManifest * ProviderConfig) :=
  ms <- read (fun s => manifests (mass s)) ;;
  match find_manifest (VStr provider_domain) ms with
  | None => raise (KeyError ("Unknown provider domain: " ++ provider_domain))
  | Some manifest =>
      dep_ok <-
        (if option_truthy (m_depends_on manifest) then
           rt <- read mass ;;
           p <- lift (get_provider host rt
                        (match m_depends_on manifest with
                         | Some d => VStr d
                         | None => VNone
                         end)) ;;
           ret (match p with Some _ => true | None => false end)
         else ret true) ;;
      if negb dep_ok then
        raise (ValueError ("Provider " ++ m_name manifest ++ " depends on "
                           ++ match m_depends_on manifest with
                              | Some d => d
                              | None => "None"
                              end))
      else
      existing <- get_provider_configs host None (Some provider_domain) false ;;
      if match existing with [] => false | _ => true end
         && negb (m_multi_instance manifest)
      then raise (ValueError ("Provider " ++ m_name manifest
                              ++ " does not support multiple instances"))
      else
      suffix <- read (shortuuid_random host 8) ;;
      let instance_id :=
        if m_multi_instance manifest
        then (m_domain manifest ++ "--" ++ suffix)%string
        else m_domain manifest in
      r <- get_provider_config_entries host (VStr provider_domain)
             (Some instance_id) None values None ;;
      let config_entries := fst r in
      let values := snd r in
      config <- lift (ProviderConfig_parse host config_entries
                        (VDict [("type",
                                 VStr (ProviderType_value (m_type manifest)));
                                ("domain", VStr (m_domain manifest));
                                ("instance_id", VStr instance_id);
                                ("default_name", VStr (m_name manifest));
                                ("values", values)])) ;;
      lift (ProviderConfig_validate host config) ;;
      ret (manifest, config)
  end.

(** The second half: persist, activate, roll back when activation raises. *)
Definition persist_and_load {ConfigEntry} (host : Host ConfigEntry)
  (manifest : ProviderManifest) (config : ProviderConfig) : M ProviderConfig :=
  let conf_key := (CONF_PROVIDERS ++ "/" ++ pc_instance_id config)%string in
  set conf_key (ProviderConfig_to_raw host config) ;;
  on_exception (load_provider_config host config) (remove conf_key) ;;
  (if ProviderType_eqb (m_type manifest) MUSIC
   then music_start_sync host [pc_instance_id config]
   else ret tt) ;;
  ret config.

(** ** A small host, for running the controller on concrete inputs *)

Definition find_provider (rt : Runtime) (v : value) : option Provider :=
  find (fun p => eq_str v (p_instance_id p)) (providers rt).

Definition demo_parse (raw : value) : outcome ProviderConfig :=
  obind (py_getitem raw "type") (fun ty =>
  obind (py_getitem raw "domain") (fun dom =>
  obind (py_getitem raw "instance_id") (fun iid =>
  obind (py_get raw "enabled" (VBool true)) (fun en =>
  match dom, iid with
  | VStr d, VStr i =>
      Ret {| pc_type := if eq_str ty "player" then PLAYER
                        else if eq_str ty "music" then MUSIC
                        else if eq_str ty "metadata" then METADATA
                        else PLUGIN;
             pc_domain := d;
             pc_instance_id := i;
             pc_enabled := truthy en;
             pc_raw := raw |}
  | _, _ => Raise (ValueError "invalid config")
  end)))).

Definition demo_update (config : ProviderConfig) (values : value)
  : outcome (ProviderConfig * list string) :=
  match values with
  | VDict d =>
      Ret ({| pc_type := pc_type config;
              pc_domain := pc_domain config;
              pc_instance_id := pc_instance_id config;
              pc_enabled := pc_enabled config;
              pc_raw := write_back (pc_raw config) "values" values |},
           map (fun kv => ("values/" ++ fst kv)%string) d)
  | _ => Raise AttributeError
  end.

(** A host whose hooks do nothing, but for the entries resolver and the
    activation hook given. *)
Definition demo_host_with {ConfigEntry : Type}
  (resolver : option string -> value -> outcome (list ConfigEntry) * value)
  (activate : ProviderConfig -> M unit) : Host ConfigEntry := {|
  get_provider := fun rt v => Ret (find_provider rt v);
  get_provider_manifest := fun rt v =>
    match find_manifest v (manifests rt) with
    | Some m => Ret m
    | None => Raise (KeyError "unknown domain")
    end;
  players_all := players;
  players_get := fun rt i =>
    find (fun p => String.eqb (pl_player_id p) i) (players rt);
  load_provider_module := fun _ _ => Ret tt;
  get_config_entries := fun _ _ action values _ => resolver action values;
  load_provider_config := activate;
  unload_provider := fun _ _ => ret tt;
  music_cleanup_provider := fun _ => ret tt;
  music_start_sync := fun _ => ret tt;
  players_remove := fun _ _ => ret tt;
  remove_player := fun _ _ => ret tt;
  set_members := fun _ _ _ => ret tt;
  shortuuid_random := fun _ _ => "k3x9w2pq";
  ProviderConfig_parse := fun _ raw => demo_parse raw;
  ProviderConfig_update := demo_update;
  ProviderConfig_validate := fun _ => Ret tt;
  ProviderConfig_to_raw := pc_raw;
  DEFAULT_PROVIDER_CONFIG_ENTRIES := [];
  MULTI_VALUE_SPLITTER := "||";
  str_other := fun _ => "?"
|}.

(** The same with a provider module that has no entries of its own and
    leaves [values] alone (as sonos_s1 and ytmusic do). *)
Definition demo_host (activate : ProviderConfig -> M unit) : Host unit :=
  demo_host_with (fun _ values => (Ret [], values)) activate.

Definition sonos_manifest : ProviderManifest := {|
  m_domain := "sonos";
  m_name := "Sonos";
  m_type := PLAYER;
  m_multi_instance := false;
  m_depends_on := None;
  m_builtin := false;
  m_allow_disable := true
|}.

Definition sonos_runtime : Runtime :=
  {| manifests := [sonos_manifest]; providers := []; players := [] |}.

Definition sonos_config : value :=
  VDict [("type", VStr "player"); ("domain", VStr "sonos");
         ("instance_id", VStr "sonos"); ("enabled", VBool false);
         ("values", VDict [])].

Definition kitchen_player : value :=
  VDict [("provider", VStr "sonos"); ("player_id", VStr "kitchen");
         ("enabled", VBool true);
         ("values", VDict [("volume_normalization", VBool true)])].

Definition kitchen_dsp : value :=
  VDict [("enabled", VBool true); ("filters", VList [])].

(** A sonos provider, one player of it that the player manager does not
    know at the moment, and the DSP config of that player. *)
Definition sonos_tree : value :=
  VDict [(CONF_PROVIDERS, VDict [("sonos", sonos_config)]);
         (CONF_PLAYERS, VDict [("kitchen", kitchen_player)]);
         (CONF_PLAYER_DSP, VDict [("kitchen", kitchen_dsp)]);
         (CONF_ONBOARD_DONE, VBool true)].

(** A tree as a first run of the migration leaves it: one player with a
    stored value. *)
Definition migrated_tree : value :=
  VDict [(CONF_PLAYERS, VDict [("kitchen", kitchen_player)]);
         (CONF_ONBOARD_DONE, VBool true)].

Definition quiet : ProviderConfig -> M unit := fun _ => ret tt.
Definition failing : ProviderConfig -> M unit :=
  fun _ => raise (ProviderError 1).

(** An outcome other than the two exceptions that [_load] catches. *)
Definition no_file_error {A} (r : outcome A) : Prop :=
  r <> Raise FileNotFoundError /\ r <> Raise JSONDecodeError.

(** A method that raises neither of them. *)
Definition clean {A} (m : M A) : Prop := forall s, no_file_error (fst (m s)).

(** The body of the [try] in [_load] once the file has been parsed. *)
Definition adopt {ConfigEntry} (host : Host ConfigEntry) (v : value) : M unit :=
  set_data v ;;
  emit (LogDebug "Loaded persistent settings from %s") ;;
  _migrate host.

(** What [_load] logs for a file it could not use. *)
Definition unreadable_log (f : File) : list Event :=
  match f with
  | Undecodable =>
      [LogException "Error while reading persistent storage file %s"]
  | _ => []
  end.

Definition add_events (evs : list Event) (s : State) : State :=
  mkState (initialized s) (_data s) (_timer_handle s) (_value_cache s)
    (file_primary s) (file_backup s) (mass s) (events s ++ evs).

(** A file [_load] cannot use: it is not there or does not decode. *)
Definition unreadable (f : File) : Prop :=
  match f with Json _ => False | _ => True end.

(** A controller that has just read [migrated_tree] from its primary file. *)
Definition restarted : State :=
  mkState false migrated_tree None [] (Json migrated_tree) NoFile
    empty_runtime [].

(** A cipher to run the secret cipher on: the token is the plain text behind
    a version tag. *)
Definition toy_encrypt (_ : unit) (_ : unit) (plain : string) : string :=
  ("gAAAAA" ++ plain)%string.

Definition toy_decrypt (_ : unit) (token : string) : option string :=
  if String.prefix "gAAAAA" token
  then Some (String.substring 6 (String.length token - 6) token)
  else None.

(** The config that Add builds for the sonos domain. *)
Definition new_sonos_config : ProviderConfig := {|
  pc_type := PLAYER;
  pc_domain := "sonos";
  pc_instance_id := "sonos";
  pc_enabled := true;
  pc_raw := VDict [("type", VStr "player"); ("domain", VStr "sonos");
                   ("instance_id", VStr "sonos");
                   ("default_name", VStr "Sonos"); ("values", VDict [])]
|}.

Definition stored_sonos_config : ProviderConfig := {|
  pc_type := PLAYER;
  pc_domain := "sonos";
  pc_instance_id := "sonos";
  pc_enabled := false;
  pc_raw := sonos_config
|}.

(** ** The entries resolver of lastfm_scrobble *)

Module Lastfm.

Definition CONF_API_KEY : string := "_api_key".
Definition CONF_API_SECRET : string := "_api_secret".
Definition CONF_SESSION_KEY : string := "_api_session_key".
Definition CONF_USERNAME : string := "_username".
Definition CONF_PROVIDER : string := "_provider".
Definition CONF_ACTION_AUTH : string := "_auth".

(** [get_config_entries] of providers/lastfm_scrobble, an entry standing as
    its key. The login round trip of the auth action goes to the network and
    is taken to fail (LoginFailed, here a provider error). Without a session
    key the function clears the two credentials in the dict it was handed. *)
Definition get_config_entries (action : option string) (values : value)
  : outcome (list string) * value :=
  let entries := [CONF_PROVIDER; CONF_API_KEY; CONF_API_SECRET] in
  match values with
  | VNone => (Ret entries, values)
  | VDict d =>
      let values_get k :=
        match dict_get k d with Some v => v | None => VNone end in
      if match action with
         | Some a => String.eqb a CONF_ACTION_AUTH
         | None => false
         end
         && negb (is_none (values_get "session_id"))
      then (Raise (ProviderError 0), values)
      else
        if negb (truthy (values_get CONF_SESSION_KEY)) then
          let values1 := write_back values CONF_API_KEY VNone in
          let values2 := write_back values1 CONF_API_SECRET VNone in
          (Ret (entries ++ [CONF_ACTION_AUTH; CONF_USERNAME; CONF_SESSION_KEY]),
           values2)
        else
          (Ret (entries ++ [CONF_USERNAME; CONF_SESSION_KEY]), values)
  | _ => (Raise AttributeError, values)
  end.

End Lastfm.

Definition lastfm_manifest : ProviderManifest := {|
  m_domain := "lastfm_scrobble";
  m_name := "LastFM Scrobbler";
  m_type := PLUGIN;
  m_multi_instance := false;
  m_depends_on := None;
  m_builtin := false;
  m_allow_disable := true
|}.

(** A host whose one provider module is lastfm_scrobble. *)
Definition lastfm_host : Host string :=
  demo_host_with Lastfm.get_config_entries (fun _ => ret tt).

Definition lastfm_values : value :=
  VDict [(Lastfm.CONF_PROVIDER, VStr "lastfm");
         (Lastfm.CONF_API_KEY, VStr "0123abcd");
         (Lastfm.CONF_API_SECRET, VStr "4567cdef")].

Definition lastfm_config : value :=
  VDict [("type", VStr "plugin"); ("domain", VStr "lastfm_scrobble");
         ("instance_id", VStr "lastfm_scrobble"); ("enabled", VBool false);
         ("values", lastfm_values)].

(** A loaded controller with a disabled scrobbler whose credentials were
    entered and the login not yet made; nothing is pending. *)
Definition lastfm_state : State :=
  loaded (VDict [(CONF_PROVIDERS, VDict [("lastfm_scrobble", lastfm_config)]);
                 (CONF_ONBOARD_DONE, VBool true)])
    {| manifests := [lastfm_manifest]; providers := []; players := [] |}.

(** An activation that outlasts the save delay and then fails: the save that
    the write armed runs while the activation is awaited. *)
Definition slow_failing : ProviderConfig -> M unit :=
  fun _ => _async_save ;; raise (ProviderError 1).

(** The controller right after [setup] on a new installation that knows the
    sonos domain: an empty tree, no settings file. *)
Definition fresh_state : State := loaded (VDict []) sonos_runtime.

(** ** Vocabulary of the statements on the provider operations *)

(** [s] with the tree [d] in place of its own. *)
Definition with_data (d : value) (s : State) : State :=
  mkState (initialized s) d (_timer_handle s) (_value_cache s)
    (file_primary s) (file_backup s) (mass s) (events s).

(** The state a write leaves: the tree [d], the cache emptied, a pending
    timer cancelled and a new one armed. *)
Definition after_write (d : value) (s : State) : State :=
  mkState (initialized s) d (Some DEFAULT_SAVE_DELAY) []
    (file_primary s) (file_backup s) (mass s)
    (events s
     ++ match _timer_handle s with Some _ => [TimerCancelled] | None => [] end
     ++ [TimerArmed DEFAULT_SAVE_DELAY]).

(** Where the dict that [get_provider_config_entries] hands to the provider
    module lives in the tree [d], when it is a stored one. *)
Definition resolver_place (instance_id : option string) (values : value)
  (values_at : option (list string)) (d : value) : option (list string) :=
  if is_none values then
    match instance_id with
    | Some i =>
        if is_empty i then None
        else stored_at d
               (subkeys_of (CONF_PROVIDERS ++ "/" ++ i ++ "/values"))
    | None => None
    end
  else values_at.

(** A host whose provider modules do not write into the [values] they are
    handed. *)
Definition leaves_values {ConfigEntry} (host : Host ConfigEntry) : Prop :=
  forall prov instance_id action values s,
    snd (get_config_entries host prov instance_id action values s) = values.

(** The place of the stored values of a provider instance. *)
Definition values_path (instance_id : string) : list string :=
  subkeys_of (CONF_PROVIDERS ++ "/" ++ instance_id) ++ ["values"].

(** The resolver call changes the state by what the provider module wrote
    into a stored dict it was handed, and by nothing else. *)
Definition resolver_wrote {ConfigEntry} (host : Host ConfigEntry)
  (iid : option string) (path : list string) (s s' : State) : Prop :=
  s' = s
  \/ exists prov act v,
       lookup_path (_data s) path = Some v
       /\ s' = with_data
                 (write_back_at (_data s) path
                    (snd (get_config_entries host prov iid act v s))) s.
(** * Properties *)

(** ** The model on small inputs *)

Example split_path : subkeys_of "players/kitchen/values" = ["players"; "kitchen"; "values"].
Proof. reflexivity. Qed.

Example split_empty_segments : split_on "/" "a//b/" = ["a"; ""; "b"; ""].
Proof. reflexivity. Qed.

Example split_empty_string : split_on "/" "" = [""].
Proof. reflexivity. Qed.

Example replace_instance_id :
  replace "slimproto--k3x9" "slimproto" "squeezelite" = "squeezelite--k3x9".
Proof. reflexivity. Qed.

Example replace_without_overlap : replace "aaa" "aa" "b" = "ba".
Proof. reflexivity. Qed.

Example replace_empty_pattern : replace "ab" "" "-" = "-a-b-".
Proof. reflexivity. Qed.

Example get_missing_parent :
  fst (get "players/hall/values" (VDict []) (loaded sonos_tree sonos_runtime))
  = Ret (VDict []).
Proof. reflexivity. Qed.

Example get_below_a_flag :
  fst (get "onboard_done/since" VNone (loaded sonos_tree sonos_runtime))
  = Raise AttributeError
  /\ fst (get "onboard_done/since/when" VNone (loaded sonos_tree sonos_runtime))
     = Raise TypeError.
Proof. split; reflexivity. Qed.

Example get_before_setup :
  fst (get "providers" VNone (init_state NoFile NoFile empty_runtime))
  = Raise (AssertionError "Not yet (async) initialized").
Proof. reflexivity. Qed.

Example set_creates_parents :
  _data (snd (set "core/streams/values/port" (VInt 8097)
                (loaded (VDict []) empty_runtime)))
  = VDict [("core",
            VDict [("streams",
                    VDict [("values", VDict [("port", VInt 8097)])])])].
Proof. reflexivity. Qed.

(** ** Facts about dicts and the walks *)

Lemma dict_get_set_same k v d : dict_get k (dict_set k v d) = Some v.
Proof.
  induction d as [|[k' v'] d IH]; simpl.
  - now rewrite String.eqb_refl.
  - destruct (String.eqb k k') eqn:E; simpl; rewrite E; auto.
Qed.

Lemma dict_get_set_other k k' v d :
  k' <> k -> dict_get k' (dict_set k v d) = dict_get k' d.
Proof.
  intros Hne. induction d as [|[k0 v0] d IH]; simpl.
  - destruct (String.eqb_spec k' k); congruence.
  - destruct (String.eqb_spec k k0) as [->|Hk]; simpl.
    + destruct (String.eqb_spec k' k0); congruence.
    + now rewrite IH.
Qed.

Lemma dict_get_del_same k d : dict_get k (dict_del k d) = None.
Proof.
  induction d as [|[k' v'] d IH]; simpl; auto.
  destruct (String.eqb k k') eqn:E; simpl; auto. now rewrite E.
Qed.

Lemma dict_get_del_other k k' d :
  k' <> k -> dict_get k' (dict_del k d) = dict_get k' d.
Proof.
  intros Hne. induction d as [|[k0 v0] d IH]; simpl; auto.
  destruct (String.eqb_spec k k0) as [->|Hk]; simpl.
  - rewrite IH. destruct (String.eqb_spec k' k0); congruence.
  - now rewrite IH.
Qed.

Lemma dict_mem_set_same k v d : dict_mem k (dict_set k v d) = true.
Proof. unfold dict_mem. now rewrite dict_get_set_same. Qed.

Lemma dict_set_get_id k v d : dict_get k d = Some v -> dict_set k v d = d.
Proof.
  induction d as [|[k' v'] d IH]; simpl; [discriminate|].
  destruct (String.eqb_spec k k') as [->|Hk]; intros H.
  - now inversion H.
  - now rewrite IH.
Qed.

Lemma split_on_nonempty sep s : split_on sep s <> [].
Proof.
  destruct s as [|c s]; simpl; [discriminate|].
  destruct (Ascii.eqb c sep); [discriminate|].
  destruct (split_on sep s); discriminate.
Qed.

Lemma subkeys_of_nonempty key : subkeys_of key <> [].
Proof. apply split_on_nonempty. Qed.

(** A [get] with another default: the stored value when there is one that is
    not [None], the default otherwise. *)
Lemma get_walk_default subkeys : forall parent x default,
  get_walk parent subkeys VNone = Ret x ->
  get_walk parent subkeys default = Ret (if is_none x then default else x).
Proof.
  induction subkeys as [|k rest IH]; intros parent x default; simpl.
  - intros H. inversion H. reflexivity.
  - destruct rest as [|k2 rest].
    + destruct parent; simpl; try discriminate.
      destruct (dict_get k d) as [v|]; simpl.
      * destruct v; simpl; intros H; inversion H; reflexivity.
      * intros H; inversion H; simpl. now destruct default.
    + destruct (py_contains k parent) as [present|e]; simpl; [|discriminate].
      destruct present; simpl.
      * destruct (py_getitem parent k) as [child|e]; simpl; [|discriminate].
        apply IH.
      * intros H; inversion H. reflexivity.
Qed.

Lemma get_walk_raise subkeys : forall parent e default,
  get_walk parent subkeys VNone = Raise e ->
  get_walk parent subkeys default = Raise e.
Proof.
  induction subkeys as [|k rest IH]; intros parent e default; simpl.
  - discriminate.
  - destruct rest as [|k2 rest].
    + destruct parent; simpl; auto.
      destruct (dict_get k d) as [v|]; simpl; [|discriminate].
      destruct v; simpl; discriminate.
    + destruct (py_contains k parent) as [present|e']; simpl; auto.
      destruct present; simpl; [|discriminate].
      destruct (py_getitem parent k) as [child|e']; simpl; [apply IH | auto].
Qed.

(** The equations of the walks at a last and at an intermediate key. *)
Lemma get_walk_last parent k default :
  get_walk parent [k] default =
  obind (py_get parent k default) (fun value =>
  if is_none value then Ret default else Ret value).
Proof. reflexivity. Qed.

Lemma get_walk_step parent k k2 rest default :
  get_walk parent (k :: k2 :: rest) default =
  obind (py_contains k parent) (fun present =>
  if negb present then Ret default
  else obind (py_getitem parent k) (fun child =>
       get_walk child (k2 :: rest) default)).
Proof. reflexivity. Qed.

Lemma set_walk_last parent k v :
  set_walk parent [k] v =
  match py_setitem parent k v with
  | Ret parent' => (parent', None)
  | Raise e => (parent, Some e)
  end.
Proof. reflexivity. Qed.

Lemma set_walk_step parent k k2 rest v :
  set_walk parent (k :: k2 :: rest) v =
  match py_setdefault parent k (VDict []) with
  | Raise e => (parent, Some e)
  | Ret parent1 =>
      match py_getitem parent1 k with
      | Raise e => (parent1, Some e)
      | Ret child =>
          let (child', r) := set_walk child (k2 :: rest) v in
          (write_back parent1 k child', r)
      end
  end.
Proof. reflexivity. Qed.

Lemma remove_walk_last parent k :
  remove_walk parent [k] =
  match py_contains k parent with
  | Raise e => (parent, Raise e)
  | Ret false => (parent, Ret false)
  | Ret true =>
      match py_pop parent k with
      | Ret parent' => (parent', Ret true)
      | Raise e => (parent, Raise e)
      end
  end.
Proof. reflexivity. Qed.

Lemma remove_walk_step parent k k2 rest :
  remove_walk parent (k :: k2 :: rest) =
  match py_contains k parent with
  | Raise e => (parent, Raise e)
  | Ret false => (parent, Ret false)
  | Ret true =>
      match py_setdefault parent k (VDict []) with
      | Raise e => (parent, Raise e)
      | Ret parent1 =>
          match py_getitem parent1 k with
          | Raise e => (parent1, Raise e)
          | Ret child =>
              let (child', r) := remove_walk child (k2 :: rest) in
              (write_back parent1 k child', r)
          end
      end
  end.
Proof. reflexivity. Qed.

(** A walk into an empty dict creates what it needs and cannot raise. *)
Lemma set_walk_fresh subkeys : forall v,
  snd (set_walk (VDict []) subkeys v) = None.
Proof.
  induction subkeys as [|k rest IH]; intros v; [reflexivity|].
  destruct rest as [|k2 rest]; [reflexivity|].
  rewrite set_walk_step. cbn -[set_walk].
  rewrite String.eqb_refl.
  specialize (IH v).
  destruct (set_walk (VDict []) (k2 :: rest) v) as [child' r].
  exact IH.
Qed.

(** A [set] that raises has not changed the tree. *)
Lemma set_walk_raise_unchanged subkeys : forall parent v parent' e,
  set_walk parent subkeys v = (parent', Some e) -> parent' = parent.
Proof.
  induction subkeys as [|k rest IH]; intros parent v parent' e.
  - discriminate.
  - destruct rest as [|k2 rest].
    + rewrite set_walk_last.
      destruct (py_setitem parent k v); intros H; inversion H; reflexivity.
    + rewrite set_walk_step.
      destruct parent; cbn -[set_walk];
        try (intros H; inversion H; reflexivity).
      destruct (dict_mem k d) eqn:Hm.
      * unfold dict_mem in Hm. cbn -[set_walk].
        destruct (dict_get k d) as [child|] eqn:Hg; [|discriminate].
        destruct (set_walk child (k2 :: rest) v) as [child' r] eqn:Hs.
        intros H; inversion H; subst.
        apply IH in Hs. subst. now rewrite dict_set_get_id.
      * cbn -[set_walk]. rewrite dict_get_set_same.
        pose proof (set_walk_fresh (k2 :: rest) v) as Hf.
        destruct (set_walk (VDict []) (k2 :: rest) v) as [child' r] eqn:Hs.
        simpl in Hf. subst r. intros H; inversion H.
Qed.

(** After a [set] that went through, [remove] runs to its end and the key
    reads as missing. *)
Lemma set_remove_get_walk subkeys : forall parent v p1 default,
  subkeys <> [] ->
  set_walk parent subkeys v = (p1, None) ->
  exists p2, remove_walk p1 subkeys = (p2, Ret true)
             /\ get_walk p2 subkeys default = Ret default.
Proof.
  induction subkeys as [|k rest IH]; intros parent v p1 default Hne;
    [congruence|].
  destruct rest as [|k2 rest].
  - rewrite set_walk_last.
    destruct parent; cbn -[remove_walk get_walk]; try discriminate.
    intros H; inversion H; subst; clear H.
    exists (VDict (dict_del k (dict_set k v d))).
    rewrite remove_walk_last, get_walk_last. simpl.
    rewrite dict_mem_set_same, dict_get_del_same. simpl.
    split; [reflexivity|]. now destruct (is_none default).
  - rewrite set_walk_step.
    destruct (py_setdefault parent k (VDict [])) as [parent1|e] eqn:Hsd;
      [|discriminate].
    destruct (py_getitem parent1 k) as [child|e] eqn:Hgi; [|discriminate].
    destruct (set_walk child (k2 :: rest) v) as [child' r] eqn:Hs.
    intros H; inversion H; subst; clear H.
    destruct (IH child v child' default ltac:(discriminate) Hs)
      as (c2 & Hrm & Hget).
    destruct parent1 as [| | | | | |d1]; try discriminate.
    exists (VDict (dict_set k c2 (dict_set k child' d1))).
    rewrite remove_walk_step, get_walk_step.
    cbn -[remove_walk get_walk].
    rewrite dict_mem_set_same. cbn -[remove_walk get_walk].
    rewrite dict_get_set_same, Hrm. cbn -[remove_walk get_walk].
    rewrite dict_mem_set_same, dict_get_set_same.
    cbn -[remove_walk get_walk]. auto.
Qed.

(** [save] always returns, and touches neither the tree nor the flag. *)
Lemma save_spec immediate s :
  exists s', save immediate s = (Ret tt, s')
             /\ _data s' = _data s
             /\ initialized s' = initialized s
             /\ mass s' = mass s
             /\ (immediate = false ->
                 _timer_handle s' = Some DEFAULT_SAVE_DELAY
                 /\ exists evs,
                      events s' = evs ++ [TimerArmed DEFAULT_SAVE_DELAY]).
Proof.
  destruct s as [i d t c fp fb m ev].
  unfold save, bind, set_value_cache, set_timer_handle, emit, modify, read,
    ret.
  destruct t, immediate; simpl; eexists; repeat split;
    try discriminate; simpl; eexists; reflexivity.
Qed.

Lemma set_ok key v s s1 :
  set key v s = (Ret tt, s1) ->
  initialized s = true
  /\ initialized s1 = true
  /\ mass s1 = mass s
  /\ _timer_handle s1 = Some DEFAULT_SAVE_DELAY
  /\ (exists evs, events s1 = evs ++ [TimerArmed DEFAULT_SAVE_DELAY])
  /\ set_walk (_data s) (subkeys_of key) v = (_data s1, None).
Proof.
  unfold set, bind, assert_initialized, read.
  destruct (initialized s) eqn:Hi; [|discriminate].
  destruct (set_walk (_data s) (subkeys_of key) v) as [d' [e|]] eqn:Hw.
  - unfold set_data, modify, raise. discriminate.
  - unfold set_data, modify.
    match goal with |- context [save false ?s0] =>
      destruct (save_spec false s0) as (s' & Hs & Hd & Hin & Hm & Ht) end.
    destruct (Ht eq_refl) as [Ht1 Ht2].
    rewrite Hs. intros H; inversion H; subst.
    simpl in *. rewrite Hd, Hin, Hm, Ht1; auto 10.
Qed.

(** ** Properties of the path store *)

(** C8: on a loaded store, a [set] of a path followed by the [remove] of the
    same path leaves the path reading as missing: [remove] returns, and
    [get] with any default returns that default. *)
Theorem set_then_remove_reads_default key v default s s1 :
  initialized s = true ->
  set key v s = (Ret tt, s1) ->
  exists s2, remove key s1 = (Ret tt, s2)
             /\ get key default s2 = (Ret default, s2).
Proof.
  intros _ Hset. apply set_ok in Hset as (_ & Hi1 & _ & _ & _ & Hw).
  destruct (set_remove_get_walk (subkeys_of key) (_data s) v (_data s1)
              default (subkeys_of_nonempty key) Hw) as (p2 & Hrm & Hget).
  unfold remove, bind, assert_initialized, read. rewrite Hi1, Hrm.
  unfold set_data, modify.
  match goal with |- context [save false ?s0] =>
    destruct (save_spec false s0) as (s' & Hs & Hd & Hin & _) end.
  rewrite Hs. exists s'. split; [reflexivity|].
  unfold get, bind, assert_initialized, read, lift.
  simpl in Hd, Hin. rewrite Hin, Hi1, Hd, Hget. reflexivity.
Qed.

(** A deeper write into a value that is not a dict raises at once. *)
Lemma set_walk_non_dict x post v :
  is_dict x = false -> post <> [] ->
  exists e, set_walk x post v = (x, Some e)
            /\ (e = TypeError \/ e = AttributeError).
Proof.
  intros Hx Hpost. destruct post as [|k [|k2 rest]]; [congruence| |].
  - rewrite set_walk_last. exists TypeError.
    destruct x; try discriminate; simpl; auto.
  - rewrite set_walk_step. exists AttributeError.
    destruct x; try discriminate; simpl; auto.
Qed.

Lemma set_walk_blocked pre : forall parent post x v,
  pre <> [] -> post <> [] ->
  lookup_path parent pre = Some x -> is_dict x = false ->
  exists e, set_walk parent (pre ++ post) v = (parent, Some e)
            /\ (e = TypeError \/ e = AttributeError).
Proof.
  induction pre as [|k pre IH]; intros parent post x v Hpre Hpost Hl Hx;
    [congruence|].
  simpl in Hl. destruct parent as [| | | | | |d]; try discriminate.
  destruct (dict_get k d) as [child|] eqn:Hg; [|discriminate].
  assert (Hstep : exists e, set_walk child (pre ++ post) v = (child, Some e)
                            /\ (e = TypeError \/ e = AttributeError)).
  { destruct pre as [|k1 pre].
    - simpl in Hl. inversion Hl; subst. now apply set_walk_non_dict.
    - apply IH with (x := x); auto. discriminate. }
  destruct Hstep as (e & Hs & He). exists e. split; [|exact He].
  simpl app. destruct (pre ++ post) as [|k2 rest] eqn:Hpp.
  { destruct pre; simpl in Hpp; [congruence|discriminate]. }
  rewrite set_walk_step. cbn -[set_walk].
  unfold dict_mem. rewrite Hg. cbn -[set_walk]. rewrite Hg, Hs.
  cbn. now rewrite dict_set_get_id.
Qed.

Lemma lookup_path_empty_dict path k :
  lookup_path (VDict []) (path ++ [k]) = None.
Proof. destruct path; reflexivity. Qed.

(** A [set] that goes through leaves the neighbours of every key on its path
    as they were. *)
Lemma set_walk_frame pre : forall parent k post v p1 k',
  set_walk parent (pre ++ k :: post) v = (p1, None) ->
  k' <> k ->
  lookup_path p1 (pre ++ [k']) = lookup_path parent (pre ++ [k']).
Proof.
  induction pre as [|k0 pre IH]; intros parent k post v p1 k' Hs Hne.
  - simpl app in *. destruct post as [|k2 rest].
    + rewrite set_walk_last in Hs.
      destruct parent; simpl in Hs; try discriminate.
      inversion Hs; subst. simpl. now rewrite dict_get_set_other.
    + rewrite set_walk_step in Hs.
      destruct parent as [| | | | | |d]; cbn -[set_walk] in Hs;
        try discriminate.
      assert (Hd1 : exists d1, (if dict_mem k d then VDict d
                                else VDict (dict_set k (VDict []) d)) = VDict d1
                               /\ dict_get k' d1 = dict_get k' d).
      { destruct (dict_mem k d); eexists; split; eauto.
        now apply dict_get_set_other. }
      destruct Hd1 as (d1 & Hd1 & Hk'). rewrite Hd1 in Hs.
      cbn -[set_walk] in Hs.
      destruct (dict_get k d1); [|discriminate].
      destruct (set_walk v0 (k2 :: rest) v) as [child' r].
      inversion Hs; subst. simpl.
      now rewrite dict_get_set_other, Hk'.
  - simpl app in *. destruct (pre ++ k :: post) as [|k2 rest] eqn:Hpp.
    { destruct pre; discriminate. }
    rewrite set_walk_step in Hs.
    destruct parent as [| | | | | |d]; cbn -[set_walk] in Hs;
      try discriminate.
    unfold dict_mem in Hs.
    destruct (dict_get k0 d) as [child|] eqn:Hg; cbn -[set_walk] in Hs.
    + rewrite Hg in Hs.
      destruct (set_walk child (k2 :: rest) v) as [child' r] eqn:Hc.
      inversion Hs; subst. cbn -[lookup_path].
      change (lookup_path (VDict (dict_set k0 child' d)) (k0 :: pre ++ [k']))
        with (match dict_get k0 (dict_set k0 child' d) with
              | Some c => lookup_path c (pre ++ [k'])
              | None => None
              end).
      change (lookup_path (VDict d) (k0 :: pre ++ [k']))
        with (match dict_get k0 d with
              | Some c => lookup_path c (pre ++ [k'])
              | None => None
              end).
      rewrite dict_get_set_same, Hg. rewrite <- Hpp in Hc.
      eapply IH; eauto.
    + rewrite dict_get_set_same in Hs.
      destruct (set_walk (VDict []) (k2 :: rest) v) as [child' r] eqn:Hc.
      inversion Hs; subst. cbn -[lookup_path].
      change (lookup_path
                (VDict (dict_set k0 child' (dict_set k0 (VDict []) d)))
                (k0 :: pre ++ [k']))
        with (match dict_get k0 (dict_set k0 child' (dict_set k0 (VDict []) d))
              with
              | Some c => lookup_path c (pre ++ [k'])
              | None => None
              end).
      change (lookup_path (VDict d) (k0 :: pre ++ [k']))
        with (match dict_get k0 d with
              | Some c => lookup_path c (pre ++ [k'])
              | None => None
              end).
      rewrite dict_get_set_same, Hg. rewrite <- Hpp in Hc.
      erewrite IH; eauto. apply lookup_path_empty_dict.
Qed.

Lemma set_data_same s : set_data (_data s) s = (Ret tt, s).
Proof. now destruct s. Qed.

(** C9: [set] creates an intermediate segment only where there is none. When
    a proper prefix of the path holds a value that is not a mapping, [set]
    raises and the tree is as before, the value still in its place; when
    [set] goes through, every mapping on the path keeps its other keys. *)
Theorem set_keeps_existing_segments key v s :
  initialized s = true ->
  (forall pre post x,
      subkeys_of key = pre ++ post -> pre <> [] -> post <> [] ->
      lookup_path (_data s) pre = Some x -> is_dict x = false ->
      exists e, set key v s = (Raise e, s)
                /\ (e = TypeError \/ e = AttributeError))
  /\ (forall s1 pre k post k',
         set key v s = (Ret tt, s1) ->
         subkeys_of key = pre ++ k :: post -> k' <> k ->
         lookup_path (_data s1) (pre ++ [k'])
         = lookup_path (_data s) (pre ++ [k'])).
Proof.
  intros Hi. split.
  - intros pre post x Hsplit Hpre Hpost Hl Hx.
    destruct (set_walk_blocked pre (_data s) post x v Hpre Hpost Hl Hx)
      as (e & Hs & He).
    exists e. split; [|exact He].
    unfold set, bind, assert_initialized, read. rewrite Hi, Hsplit, Hs.
    rewrite set_data_same. reflexivity.
  - intros s1 pre k post k' Hset Hsplit Hne.
    apply set_ok in Hset as (_ & _ & _ & _ & _ & Hw). rewrite Hsplit in Hw.
    eapply set_walk_frame; eauto.
Qed.

(** What [get] returns for a value that is stored at the path. *)
Lemma get_walk_lookup subkeys : forall parent x,
  subkeys <> [] -> lookup_path parent subkeys = Some x ->
  get_walk parent subkeys VNone = Ret x.
Proof.
  induction subkeys as [|k rest IH]; intros parent x Hne Hl; [congruence|].
  simpl in Hl. destruct parent as [| | | | | |d]; try discriminate.
  destruct (dict_get k d) as [child|] eqn:Hg; [|discriminate].
  destruct rest as [|k2 rest].
  - simpl in Hl. inversion Hl; subst. rewrite get_walk_last. simpl.
    rewrite Hg. simpl. now destruct x.
  - rewrite get_walk_step. cbn -[get_walk]. unfold dict_mem. rewrite Hg.
    cbn -[get_walk]. apply IH; [discriminate|exact Hl].
Qed.

Lemma get_run key default s :
  initialized s = true ->
  get key default s = (get_walk (_data s) (subkeys_of key) default, s).
Proof.
  intros Hi. unfold get, bind, assert_initialized, read, lift.
  now rewrite Hi.
Qed.

Lemma set_default_run key v x s :
  initialized s = true ->
  get_walk (_data s) (subkeys_of key) VNone = Ret x ->
  set_default key v s =
  if eq_str (if is_none x then MISSING else x) "__MISSING__"
  then set key v s else (Ret tt, s).
Proof.
  intros Hi Hg. unfold set_default, bind at 1 2.
  unfold assert_initialized at 1. rewrite Hi.
  rewrite (get_run key MISSING s Hi).
  rewrite (get_walk_default _ _ _ MISSING Hg).
  destruct (eq_str _ _); reflexivity.
Qed.

(** C2, as the code has it: with [null] stored under ["a"],
    [set_default "a" 1] returns and the store holds 1 there. *)
Lemma set_default_overwrites_stored_null :
  let s := loaded (VDict [("a", VNone)]) empty_runtime in
  lookup_path (_data s) (subkeys_of "a") = Some VNone
  /\ exists s', set_default "a" (VInt 1) s = (Ret tt, s')
                /\ lookup_path (_data s') (subkeys_of "a") = Some (VInt 1).
Proof.
  split; [reflexivity|]. eexists. split; reflexivity.
Qed.

(** C2 (amended): [set_default] writes the value when [get] finds the path
    absent or finds [null] there, a stored [null] included, and leaves the
    store as it is when the path holds any other value than the sentinel
    string. *)
Theorem set_default_writes_when_absent_or_null key v s :
  initialized s = true ->
  (get key VNone s = (Ret VNone, s) -> set_default key v s = set key v s)
  /\ (lookup_path (_data s) (subkeys_of key) = Some VNone ->
      set_default key v s = set key v s)
  /\ (forall x, lookup_path (_data s) (subkeys_of key) = Some x ->
                x <> VNone -> x <> MISSING ->
                set_default key v s = (Ret tt, s)).
Proof.
  intros Hi. split; [|split].
  - rewrite (get_run key VNone s Hi). intros H. inversion H as [Hg].
    rewrite (set_default_run key v VNone s Hi Hg). reflexivity.
  - intros Hl.
    apply get_walk_lookup in Hl; [|apply subkeys_of_nonempty].
    rewrite (set_default_run key v VNone s Hi Hl). reflexivity.
  - intros x Hl Hnone Hmiss.
    apply get_walk_lookup in Hl; [|apply subkeys_of_nonempty].
    rewrite (set_default_run key v x s Hi Hl).
    destruct x; try congruence; try reflexivity.
    simpl. destruct (String.eqb_spec s0 "__MISSING__"); [|reflexivity].
    subst. now elim Hmiss.
Qed.

(** ** Properties of the secret cipher *)

Lemma prefix_app p t : String.prefix p (p ++ t) = true.
Proof.
  induction p as [|c p IH]; simpl; [now destruct t|].
  destruct (Ascii.ascii_dec c c); [exact IH|congruence].
Qed.

Lemma replace_from_skip old new a : forall t,
  replace_from old new (String.length a) (a ++ t) = replace_from old new 0 t.
Proof.
  induction a as [|c a IH]; intros t; simpl; [reflexivity|apply IH].
Qed.

Lemma replace_from_absent old new : forall t,
  occurs old t = false -> replace_from old new 0 t = t.
Proof.
  induction t as [|c t IH]; [reflexivity|].
  cbn -[String.prefix]. intros H. apply orb_false_iff in H as [Hp Ho].
  rewrite Hp, IH; auto.
Qed.

(** Stripping the marker off a marked token that does not contain it. *)
Lemma replace_marker_off marker tok :
  is_empty marker = false -> occurs marker tok = false ->
  replace (marker ++ tok) marker "" = tok.
Proof.
  intros Hm Ho. unfold replace. rewrite Hm.
  destruct marker as [|c m]; [discriminate|].
  change ((String c m ++ tok)%string) with (String c (m ++ tok)).
  cbn -[String.prefix].
  change (String c (m ++ tok)) with ((String c m ++ tok)%string).
  rewrite prefix_app. simpl. rewrite Nat.sub_0_r, replace_from_skip.
  now apply replace_from_absent.
Qed.

Section CipherProperties.

Variable ENCRYPT_SUFFIX : string.
Variables Fernet Entropy : Type.
Variable fernet_encrypt : Fernet -> Entropy -> string -> string.
Variable fernet_decrypt : Fernet -> string -> option string.

(** C7: encrypting what [encrypt_string] returned gives it back unchanged;
    a plain string that was encrypted decrypts to itself, for a cipher that
    decrypts its own token and a token in which the marker does not occur;
    and [decrypt_string] returns an empty or unmarked string as it is. *)
Theorem encrypt_idempotent_decrypt_inverse :
  (forall f e1 e2 x,
      obind (encrypt_string ENCRYPT_SUFFIX fernet_encrypt f e1 x)
            (encrypt_string ENCRYPT_SUFFIX fernet_encrypt f e2)
      = encrypt_string ENCRYPT_SUFFIX fernet_encrypt f e1 x)
  /\ (forall f e x,
         startswith x ENCRYPT_SUFFIX = false ->
         fernet_decrypt f (fernet_encrypt f e x) = Some x ->
         occurs ENCRYPT_SUFFIX (fernet_encrypt f e x) = false ->
         obind (encrypt_string ENCRYPT_SUFFIX fernet_encrypt (Some f) e x)
               (decrypt_string ENCRYPT_SUFFIX fernet_decrypt (Some f))
         = Ret x)
  /\ (forall f x,
         is_empty x = true \/ startswith x ENCRYPT_SUFFIX = false ->
         decrypt_string ENCRYPT_SUFFIX fernet_decrypt f x = Ret x).
Proof.
  split; [|split].
  - intros f e1 e2 x. unfold encrypt_string at 1 3.
    destruct (startswith x ENCRYPT_SUFFIX) eqn:Hx; simpl.
    + unfold encrypt_string. now rewrite Hx.
    + destruct f as [f|]; simpl; [|reflexivity].
      unfold encrypt_string, startswith. now rewrite prefix_app.
  - intros f e x Hx Hrt Hocc. unfold encrypt_string. rewrite Hx. simpl.
    assert (Hm : is_empty ENCRYPT_SUFFIX = false).
    { destruct ENCRYPT_SUFFIX; [|reflexivity].
      unfold startswith in Hx. now destruct x. }
    unfold decrypt_string, startswith. rewrite prefix_app. simpl.
    rewrite (replace_marker_off _ _ Hm Hocc), Hrt.
    destruct ENCRYPT_SUFFIX; [discriminate|reflexivity].
  - intros f x [Hx|Hx]; unfold decrypt_string.
    + now rewrite Hx.
    + rewrite Hx. simpl. now destruct (is_empty x).
Qed.

End CipherProperties.

(** ** Properties of the provider lifecycle *)

Ltac step_match :=
  match goal with
  | |- context [match ?x with _ => _ end] => destruct x eqn:?
  end.

(** [_add_provider_config] is its two halves in sequence. *)
Lemma add_provider_config_steps {ConfigEntry} (host : Host ConfigEntry)
  dom vals s :
  _add_provider_config host dom vals s
  = bind (new_provider_config host dom vals)
         (fun mc => persist_and_load host (fst mc) (snd mc)) s.
Proof.
  unfold _add_provider_config, new_provider_config, persist_and_load.
  unfold bind, read, raise, ret.
  repeat (step_match; try reflexivity; simpl fst; simpl snd).
Qed.

(** On a walkable path [remove] does not raise, and the path then reads as
    missing. *)
Lemma remove_get_walk path : forall parent default,
  path <> [] -> walkable parent path = true ->
  exists p2 b, remove_walk parent path = (p2, Ret b)
               /\ get_walk p2 path default = Ret default.
Proof.
  induction path as [|k rest IH]; intros parent default Hne Hw; [congruence|].
  simpl in Hw. destruct parent as [| | | | | |d]; try discriminate.
  destruct (dict_get k d) as [child|] eqn:Hg.
  - destruct rest as [|k2 rest].
    + exists (VDict (dict_del k d)), true.
      rewrite remove_walk_last, get_walk_last. simpl.
      unfold dict_mem. rewrite Hg, dict_get_del_same. simpl.
      split; [reflexivity|]. now destruct (is_none default).
    + destruct (IH child default ltac:(discriminate) Hw) as (c2 & b & Hr & Hgt).
      exists (VDict (dict_set k c2 d)), b.
      rewrite remove_walk_step, get_walk_step.
      cbn -[remove_walk get_walk]. unfold dict_mem. rewrite Hg.
      cbn -[remove_walk get_walk]. rewrite Hg, Hr.
      cbn -[remove_walk get_walk]. rewrite dict_get_set_same.
      cbn -[remove_walk get_walk]. auto.
  - exists (VDict d), false. destruct rest as [|k2 rest].
    + rewrite remove_walk_last, get_walk_last. simpl.
      unfold dict_mem. rewrite Hg. simpl.
      split; [reflexivity|]. now destruct (is_none default).
    + rewrite remove_walk_step, get_walk_step. simpl.
      unfold dict_mem. rewrite Hg. simpl. auto.
Qed.

(** [remove] on a walkable path: it returns, touches no file, and the key
    then reads as the default. *)
Lemma remove_walkable key s :
  initialized s = true ->
  walkable (_data s) (subkeys_of key) = true ->
  exists s', remove key s = (Ret tt, s')
             /\ initialized s' = true
             /\ file_primary s' = file_primary s
             /\ file_backup s' = file_backup s
             /\ (forall default,
                    get_walk (_data s') (subkeys_of key) default = Ret default).
Proof.
  intros Hi Hw.
  destruct (remove_get_walk (subkeys_of key) (_data s) VNone
              (subkeys_of_nonempty key) Hw) as (p2 & b & Hr & Hg).
  assert (Hall : forall default,
             get_walk p2 (subkeys_of key) default = Ret default).
  { intros default. now rewrite (get_walk_default _ _ _ default Hg). }
  unfold remove, bind, assert_initialized, read. rewrite Hi, Hr.
  destruct s as [i d t c fp fb m ev]. simpl in *.
  destruct b.
  - unfold set_data, modify, save, bind, set_value_cache, emit, modify,
      read, set_timer_handle, ret. simpl.
    destruct t; simpl; eexists; repeat split; auto.
  - unfold set_data, modify. simpl. eexists; repeat split; auto.
Qed.

Lemma walkable_after_set subkeys : forall parent v p1,
  set_walk parent subkeys v = (p1, None) -> walkable p1 subkeys = true.
Proof.
  induction subkeys as [|k rest IH]; intros parent v p1 Hs; [reflexivity|].
  destruct rest as [|k2 rest].
  - rewrite set_walk_last in Hs. destruct parent; simpl in Hs; try discriminate.
    inversion Hs; subst. simpl. now rewrite dict_get_set_same.
  - rewrite set_walk_step in Hs.
    destruct (py_setdefault parent k (VDict [])) as [parent1|e]; [|discriminate].
    destruct (py_getitem parent1 k) as [child|e] eqn:Hgi; [|discriminate].
    destruct (set_walk child (k2 :: rest) v) as [child' r] eqn:Hc.
    inversion Hs; subst.
    destruct parent1; simpl in Hgi; try discriminate.
    cbn -[walkable].
    change (walkable (VDict (dict_set k child' d)) (k :: k2 :: rest))
      with (match dict_get k (dict_set k child' d) with
            | Some child => walkable child (k2 :: rest)
            | None => true
            end).
    rewrite dict_get_set_same. eapply IH; eauto.
Qed.

(** [_async_save] writes the tree as it stands to the primary file. *)
Lemma async_save_writes_tree s :
  exists s', _async_save s = (Ret tt, s')
             /\ file_primary s' = Json (_data s)
             /\ _data s' = _data s
             /\ initialized s' = initialized s.
Proof.
  destruct s as [i d t c fp fb m ev].
  unfold _async_save, bind, read, set_files, emit, modify, ret.
  destruct fp, fb; eexists; repeat split.
Qed.

Lemma save_run b s :
  save b s
  = (Ret tt,
     if b then
       mkState (initialized s) (_data s) None [] (file_primary s)
         (file_backup s) (mass s)
         (events s
          ++ match _timer_handle s with
             | Some _ => [TimerCancelled]
             | None => []
             end
          ++ [TaskCreated])
     else after_write (_data s) s).
Proof.
  destruct s as [i d t c fp fb m ev].
  unfold save, after_write, bind, set_value_cache, set_timer_handle, emit,
    modify, read, ret.
  destruct t, b; simpl; rewrite <- ?app_assoc; reflexivity.
Qed.

(** What a call of [set] does to the state. *)
Lemma set_run key v s :
  initialized s = true ->
  set key v s
  = match set_walk (_data s) (subkeys_of key) v with
    | (d', None) => (Ret tt, after_write d' s)
    | (_, Some e) => (Raise e, s)
    end.
Proof.
  intros Hi. unfold set, bind at 1 2, assert_initialized, read. rewrite Hi.
  destruct (set_walk (_data s) (subkeys_of key) v) as [d' [e|]] eqn:Hw.
  - apply set_walk_raise_unchanged in Hw. subst d'.
    unfold bind. rewrite set_data_same. reflexivity.
  - unfold bind. unfold set_data, modify. rewrite save_run. reflexivity.
Qed.

Lemma remove_walk_present path : forall parent x,
  path <> [] -> lookup_path parent path = Some x ->
  exists p2, remove_walk parent path = (p2, Ret true).
Proof.
  induction path as [|k rest IH]; intros parent x Hne Hl; [congruence|].
  simpl in Hl. destruct parent as [| | | | | |d]; try discriminate.
  destruct (dict_get k d) as [child|] eqn:Hg; [|discriminate].
  destruct rest as [|k2 rest].
  - rewrite remove_walk_last. simpl. unfold dict_mem. rewrite Hg.
    eexists. reflexivity.
  - destruct (IH child x ltac:(discriminate) Hl) as (c2 & Hr).
    rewrite remove_walk_step. cbn -[remove_walk]. unfold dict_mem.
    rewrite Hg. cbn -[remove_walk]. rewrite Hg, Hr. eexists. reflexivity.
Qed.

(** [remove] of a key that holds something pops it and arms the save. *)
Lemma remove_present key s x :
  initialized s = true ->
  lookup_path (_data s) (subkeys_of key) = Some x ->
  exists d', remove key s = (Ret tt, after_write d' s).
Proof.
  intros Hi Hl.
  destruct (remove_walk_present _ _ _ (subkeys_of_nonempty key) Hl)
    as (p2 & Hr).
  exists p2. unfold remove, bind at 1 2, assert_initialized, read.
  rewrite Hi, Hr. unfold bind, set_data, modify. now rewrite save_run.
Qed.

(** C1, as the code has it: on an installation without a settings file, an
    activation of the new sonos instance that outlasts the save delay and
    then fails makes Add raise and roll back, and the store then reads the
    instance as missing; but the file that the armed save wrote meanwhile
    holds the entry. *)
Lemma add_rollback_leaves_entry_on_disk :
  let host := demo_host slow_failing in
  file_primary fresh_state = NoFile
  /\ exists s3,
       _add_provider_config host "sonos" (VDict []) fresh_state
       = (Raise (ProviderError 1), s3)
       /\ get "providers/sonos" VNone s3 = (Ret VNone, s3)
       /\ exists d,
            file_primary s3 = Json d
            /\ lookup_path d ["providers"; "sonos"]
               = Some (pc_raw new_sonos_config).
Proof.
  intros host. split; [reflexivity|].
  exists (snd (_add_provider_config host "sonos" (VDict []) fresh_state)).
  vm_compute. split; [reflexivity|]. split; [reflexivity|].
  eexists. split; reflexivity.
Qed.

(** C1 (amended): when the checks of Add have passed, the new config has
    been written to the store and the activation hook then raises (leaving
    the controller loaded and the path of the entry walkable),
    [_add_provider_config] raises the hook's error after removing the entry:
    nothing is stored at its key and a later [get_provider_config] of the
    instance raises KeyError. The rollback writes no file: the files are as
    the hook left them. When it found the entry it armed the debounced save,
    and the file that save writes holds the tree without the entry. *)
Theorem add_rolls_back_when_activation_raises {ConfigEntry}
  (host : Host ConfigEntry) dom vals s manifest config s0 s1 s2 e :
  let conf_key := (CONF_PROVIDERS ++ "/" ++ pc_instance_id config)%string in
  new_provider_config host dom vals s = (Ret (manifest, config), s0) ->
  set conf_key (ProviderConfig_to_raw host config) s0 = (Ret tt, s1) ->
  load_provider_config host config s1 = (Raise e, s2) ->
  initialized s2 = true ->
  walkable (_data s2) (subkeys_of conf_key) = true ->
  exists s3,
    _add_provider_config host dom vals s = (Raise e, s3)
    /\ (forall default, get conf_key default s3 = (Ret default, s3))
    /\ get_provider_config host (pc_instance_id config) s3
       = (Raise (KeyError ("No config found for provider id "
                           ++ pc_instance_id config)), s3)
    /\ file_primary s3 = file_primary s2
    /\ file_backup s3 = file_backup s2
    /\ (lookup_path (_data s2) (subkeys_of conf_key) <> None ->
        _timer_handle s3 = Some DEFAULT_SAVE_DELAY)
    /\ exists s4,
         _async_save s3 = (Ret tt, s4)
         /\ file_primary s4 = Json (_data s3)
         /\ forall default, get conf_key default s4 = (Ret default, s4).
Proof.
  intros conf_key Hnew Hset Hload Hi2 Hw.
  destruct (remove_walkable conf_key s2 Hi2 Hw)
    as (s3 & Hrm & Hi3 & Hfp & Hfb & Hget).
  exists s3.
  assert (Hg : forall default, get conf_key default s3 = (Ret default, s3)).
  { intros default. rewrite (get_run conf_key default s3 Hi3).
    now rewrite Hget. }
  split; [|split; [exact Hg|split; [|split; [exact Hfp|split; [exact Hfb|split]]]]].
  - rewrite add_provider_config_steps. unfold bind at 1. rewrite Hnew.
    unfold persist_and_load. simpl fst; simpl snd. fold conf_key.
    unfold bind at 1. rewrite Hset.
    unfold bind at 1. unfold on_exception. rewrite Hload, Hrm. reflexivity.
  - unfold get_provider_config. fold conf_key. cbv zeta. unfold bind at 1.
    rewrite Hg. reflexivity.
  - intros Hl.
    destruct (lookup_path (_data s2) (subkeys_of conf_key)) as [x|] eqn:Hx;
      [|congruence].
    destruct (remove_present conf_key s2 x Hi2 Hx) as (d' & Hrm').
    rewrite Hrm in Hrm'. inversion Hrm'. reflexivity.
  - destruct (async_save_writes_tree s3) as (s4 & Hs & Hf & Hd & Hi4).
    exists s4. split; [exact Hs|]. split; [exact Hf|].
    intros default. rewrite (get_run conf_key default s4); [|congruence].
    now rewrite Hd, Hget.
Qed.

(** ** What reading a provider config does to the state *)

Lemma with_data_same s : with_data (_data s) s = s.
Proof. now destruct s. Qed.

Lemma write_back_at_same path : forall d v,
  lookup_path d path = Some v -> write_back_at d path v = d.
Proof.
  induction path as [|k rest IH]; intros d v H; simpl in *.
  - now inversion H.
  - destruct d as [| | | | | |l]; try discriminate. simpl.
    destruct (dict_get k l) as [child|] eqn:Hg; [|discriminate].
    rewrite (IH _ _ H). simpl. now rewrite dict_set_get_id.
Qed.

(** A write below one key of the tree leaves the other keys alone. *)
Lemma write_back_at_other k k' rest d v :
  k' <> k ->
  lookup_path (write_back_at d (k :: rest) v) [k'] = lookup_path d [k'].
Proof.
  intros Hne. simpl. destruct d as [| | | | | |l]; try reflexivity. simpl.
  destruct (dict_get k l) as [child|]; [|reflexivity].
  simpl. now rewrite dict_get_set_other.
Qed.

Lemma write_back_at_dict l path v :
  is_dict (write_back_at (VDict l) path v) = true \/ path = [].
Proof.
  destruct path as [|k rest]; [now right|left]. simpl.
  destruct (dict_get k l); reflexivity.
Qed.

Lemma split_on_app sep a b :
  split_on sep (a ++ String sep b) = split_on sep a ++ split_on sep b.
Proof.
  induction a as [|c a IH]; simpl.
  - now rewrite Ascii.eqb_refl.
  - destruct (Ascii.eqb c sep); [now rewrite IH|].
    rewrite IH. destruct (split_on sep a) eqn:E; [|reflexivity].
    now apply split_on_nonempty in E.
Qed.

Lemma values_path_subkeys instance_id :
  subkeys_of (CONF_PROVIDERS ++ "/" ++ instance_id ++ "/values")
  = values_path instance_id.
Proof.
  unfold values_path, subkeys_of.
  change (CONF_PROVIDERS ++ "/" ++ instance_id ++ "/values")%string
    with (CONF_PROVIDERS ++ String "/" (instance_id ++ String "/" "values"))%string.
  change (CONF_PROVIDERS ++ "/" ++ instance_id)%string
    with (CONF_PROVIDERS ++ String "/" instance_id)%string.
  rewrite !split_on_app, <- app_assoc. reflexivity.
Qed.

Lemma values_path_head instance_id :
  values_path instance_id
  = CONF_PROVIDERS :: (subkeys_of instance_id ++ ["values"]).
Proof.
  unfold values_path, subkeys_of.
  change (CONF_PROVIDERS ++ "/" ++ instance_id)%string
    with (CONF_PROVIDERS ++ String "/" instance_id)%string.
  rewrite split_on_app. reflexivity.
Qed.

Lemma lookup_path_app p : forall d q,
  lookup_path d (p ++ q)
  = match lookup_path d p with
    | Some x => lookup_path x q
    | None => None
    end.
Proof.
  induction p as [|k p IH]; intros d q; [reflexivity|].
  simpl. destruct d; try reflexivity.
  destruct (dict_get k d); [apply IH|reflexivity].
Qed.

(** What [get] returns is its default or the object stored at the path. *)
Lemma get_walk_cases subkeys : forall parent default x,
  get_walk parent subkeys default = Ret x ->
  x = default \/ (lookup_path parent subkeys = Some x /\ is_none x = false).
Proof.
  induction subkeys as [|k rest IH]; intros parent default x Hg.
  - simpl in Hg. inversion Hg. now left.
  - destruct rest as [|k2 rest].
    + rewrite get_walk_last in Hg.
      destruct parent as [| | | | | |d]; simpl in Hg; try discriminate.
      simpl. destruct (dict_get k d) as [v|]; simpl in Hg.
      * destruct (is_none v) eqn:Hn; inversion Hg; subst; auto.
      * destruct (is_none default); inversion Hg; auto.
    + rewrite get_walk_step in Hg.
      destruct parent as [|b|z|q|s0|l|d]; cbn -[get_walk] in Hg;
        try discriminate.
      * destruct (occurs k s0); cbn -[get_walk] in Hg;
          [discriminate|inversion Hg; auto].
      * destruct (existsb (fun x0 => eq_str x0 k) l); cbn -[get_walk] in Hg;
          [discriminate|inversion Hg; auto].
      * revert Hg. cbn -[get_walk lookup_path]. unfold dict_mem.
        change (lookup_path (VDict d) (k :: k2 :: rest))
          with (match dict_get k d with
                | Some c => lookup_path c (k2 :: rest)
                | None => None
                end).
        destruct (dict_get k d) as [child|]; cbn -[get_walk lookup_path].
        -- intros Hg. now apply IH.
        -- intros Hg. inversion Hg. auto.
Qed.

Lemma get_walk_stored subkeys parent x default :
  subkeys <> [] -> lookup_path parent subkeys = Some x ->
  get_walk parent subkeys default = Ret (if is_none x then default else x).
Proof.
  intros Hne Hl. apply get_walk_default. now apply get_walk_lookup.
Qed.

(** [get] is a query. *)
Lemma get_state key default s : snd (get key default s) = s.
Proof.
  unfold get, bind, assert_initialized, read, lift.
  destruct (initialized s); reflexivity.
Qed.

Lemma get_ret key default s x s' :
  get key default s = (Ret x, s') ->
  s' = s /\ initialized s = true
  /\ get_walk (_data s) (subkeys_of key) default = Ret x.
Proof.
  unfold get, bind, assert_initialized, read, lift.
  destruct (initialized s); [|discriminate].
  intros H. inversion H. auto.
Qed.

Lemma resolve_entries_state {ConfigEntry} (host : Host ConfigEntry)
  prov iid act v place s :
  snd (resolve_entries host prov iid act v place s)
  = match place with
    | Some path =>
        with_data
          (write_back_at (_data s) path
             (snd (get_config_entries host prov iid act v s))) s
    | None => s
    end.
Proof.
  unfold resolve_entries.
  destruct (get_config_entries host prov iid act v s) as [r v'].
  destruct place, r; reflexivity.
Qed.

(** The state after [m ;; k] when [k] leaves every state as it is. *)
Lemma bind_then_query {A B} (m : M A) (k : A -> M B) s :
  (forall a s', snd (k a s') = s') -> snd (bind m k s) = snd (m s).
Proof.
  intros Hk. unfold bind. destruct (m s) as [[a|e] s']; [apply Hk|reflexivity].
Qed.

Lemma bind_query {A B} (m : M A) (k : A -> M B) s (P : State -> Prop) :
  snd (m s) = s -> (forall a, P (snd (k a s))) -> P s -> P (snd (bind m k s)).
Proof.
  intros Hm Hk Hs. unfold bind. destruct (m s) as [[a|e] s'] eqn:E;
    simpl in Hm; subst; [apply Hk|exact Hs].
Qed.

Lemma bind_state {A B} (m : M A) (k : A -> M B) s (P : State -> Prop) :
  (forall a s1, m s = (Ret a, s1) -> P (snd (k a s1))) ->
  (forall e s1, m s = (Raise e, s1) -> P s1) ->
  P (snd (bind m k s)).
Proof.
  intros Hr He. unfold bind. destruct (m s) as [[a|e] s1]; eauto.
Qed.

Lemma get_provider_config_entries_state {ConfigEntry}
  (host : Host ConfigEntry) dom iid act vals place s :
  (is_none vals = false ->
   forall path, place = Some path ->
                lookup_path (_data s) path = Some vals) ->
  forall s',
    snd (get_provider_config_entries host dom iid act vals place s) = s' ->
    s' = s
    \/ exists path, resolver_place iid vals place (_data s) = Some path
                    /\ resolver_wrote host iid path s s'.
Proof.
  intros Hat s' <-. unfold get_provider_config_entries, resolver_place.
  apply bind_query; [reflexivity| |now left]. intros ms.
  destruct (find_manifest dom ms) as [prov|]; [|now left].
  apply bind_query; [reflexivity| |now left]. intros _.
  destruct (is_none vals) eqn:Hn.
  - destruct iid as [i|].
    + destruct (is_empty i).
      * left. unfold bind at 1, ret at 1. rewrite bind_then_query by reflexivity.
        now rewrite resolve_entries_state.
      * set (key := (CONF_PROVIDERS ++ "/" ++ i ++ "/values")%string).
        apply bind_state.
        2:{ intros e s1. unfold bind.
            pose proof (get_state key (VDict []) s) as Hq.
            destruct (get key (VDict []) s) as [[v|e0] s0]; simpl in Hq;
              subst s0; intros H; inversion H. now left. }
        intros arg s1. unfold bind at 1.
        destruct (get key (VDict []) s) as [[v|e] s0] eqn:Hg; [|discriminate].
        apply get_ret in Hg as (-> & Hi & Hg).
        intros H. unfold bind, read, ret in H. inversion H. subst arg s1.
        clear H.
        simpl fst; simpl snd.
        rewrite bind_then_query by reflexivity.
        rewrite resolve_entries_state.
        unfold stored_at.
        destruct (lookup_path (_data s) (subkeys_of key)) as [v0|] eqn:Hl;
          [|now left].
        destruct (is_none v0) eqn:Hn0; [now left|].
        right. exists (subkeys_of key). split; [reflexivity|].
        right. exists prov, act, v. split; [|reflexivity].
        rewrite (get_walk_stored _ _ _ _ (subkeys_of_nonempty key) Hl) in Hg.
        rewrite Hn0 in Hg. congruence.
    + left. unfold bind at 1, ret at 1. rewrite bind_then_query by reflexivity.
      now rewrite resolve_entries_state.
  - rewrite bind_then_query by reflexivity. rewrite resolve_entries_state.
    destruct place as [path|]; [|now left].
    right. exists path. split; [reflexivity|].
    right. exists prov, act, vals. split; [|reflexivity]. now apply Hat.
Qed.

(** When [get_provider_config] goes past its first test, the tree is a dict
    and the entry is stored at the key. *)
Lemma get_truthy key s raw_conf s' :
  get key (VDict []) s = (Ret raw_conf, s') -> truthy raw_conf = true ->
  s' = s /\ initialized s = true
  /\ lookup_path (_data s) (subkeys_of key) = Some raw_conf.
Proof.
  intros Hg Ht. apply get_ret in Hg as (-> & Hi & Hg).
  split; [reflexivity|]. split; [exact Hi|].
  apply get_walk_cases in Hg as [->|[Hl _]]; [discriminate|exact Hl].
Qed.

(** [get_provider_config] changes the state by what the provider module
    wrote into the stored values of the instance, and by nothing else. *)
Lemma get_provider_config_state {ConfigEntry} (host : Host ConfigEntry)
  iid s :
  resolver_wrote host (Some iid) (values_path iid) s
    (snd (get_provider_config host iid s)).
Proof.
  unfold get_provider_config. cbv zeta.
  set (conf_key := (CONF_PROVIDERS ++ "/" ++ iid)%string).
  unfold bind at 1.
  destruct (get conf_key (VDict []) s) as [[raw_conf|e] s0] eqn:Hg.
  2:{ left. now rewrite <- (get_state conf_key (VDict []) s), Hg. }
  destruct (truthy raw_conf) eqn:Ht.
  2:{ left. now rewrite <- (get_state conf_key (VDict []) s), Hg. }
  destruct (get_truthy _ _ _ _ Hg Ht) as (-> & Hi & Hl).
  unfold bind at 1, lift at 1.
  destruct (py_getitem raw_conf "domain") as [domain|e]; [|now left].
  unfold bind at 1, lift at 1.
  destruct (py_get raw_conf "values" VNone) as [values|e] eqn:Hv; [|now left].
  rewrite bind_then_query.
  2:{ intros r s'. unfold bind, read.
      destruct (find_manifest domain (manifests (mass s'))); reflexivity. }
  destruct (get_provider_config_entries_state host domain (Some iid) None
              values (Some (subkeys_of conf_key ++ ["values"])) s)
    with (s' := snd (get_provider_config_entries host domain (Some iid) None
                       values (Some (subkeys_of conf_key ++ ["values"])) s))
    as [Hs|(path & Hp & Hw)]; [|reflexivity| |].
  - intros Hn path Hpath.
    assert (path = subkeys_of conf_key ++ ["values"]) as -> by congruence.
    rewrite lookup_path_app, Hl.
    destruct raw_conf as [| | | | | |rc]; try discriminate. simpl in *.
    destruct (dict_get "values" rc) as [v|]; inversion Hv; subst;
      [reflexivity|discriminate].
  - left. exact Hs.
  - assert (path = values_path iid) as ->; [|exact Hw].
    unfold resolver_place in Hp. destruct (is_none values).
    + destruct (is_empty iid); [discriminate|].
      unfold stored_at in Hp. rewrite values_path_subkeys in Hp.
      destruct (lookup_path (_data s) (values_path iid)) as [v0|];
        [|discriminate].
      destruct (is_none v0); now inversion Hp.
    + now inversion Hp.
Qed.

Lemma resolver_wrote_frame {ConfigEntry} (host : Host ConfigEntry)
  iid path s s' :
  resolver_wrote host iid path s s' ->
  s' = with_data (_data s') s
  /\ (_data s' = _data s
      \/ exists v values',
           lookup_path (_data s) path = Some v
           /\ _data s' = write_back_at (_data s) path values')
  /\ (leaves_values host -> s' = s).
Proof.
  intros [->|(prov & act & v & Hl & ->)].
  - split; [now rewrite with_data_same|]. split; [now left|reflexivity].
  - split; [reflexivity|]. split.
    + right. exists v. eexists. split; [exact Hl|reflexivity].
    + intros Hpure. rewrite Hpure, (write_back_at_same _ _ _ Hl).
      apply with_data_same.
Qed.

(** ** Update and save *)

(** C4, as the code has it: an update of the stored sonos instance with an
    empty change set, while the instance is disabled and not running, made
    through [save_provider_config] on a controller with nothing pending and
    no settings file, arms the save timer; the save it arms writes the
    file. *)
Lemma update_without_change_arms_save :
  let host := demo_host quiet in
  let s := loaded sonos_tree sonos_runtime in
  let r := save_provider_config host "sonos" (VDict []) (Some "sonos") s in
  ProviderConfig_update host stored_sonos_config (VDict [])
  = Ret (stored_sonos_config, [])
  /\ get_provider host (mass s) (VStr "sonos") = Ret None
  /\ _timer_handle s = None
  /\ file_primary s = NoFile
  /\ r = (Ret stored_sonos_config, snd r)
  /\ _timer_handle (snd r) = Some DEFAULT_SAVE_DELAY
  /\ events (snd r) = [TimerArmed DEFAULT_SAVE_DELAY]
  /\ file_primary (snd (_async_save (snd r))) = Json sonos_tree.
Proof.
  vm_compute. repeat split.
Qed.

(** A read of a provider config can change the store: the scrobbler's module
    clears the two credentials in the stored values it is handed, so an
    update with an empty change set returns through the no-change branch
    with the credentials gone from the tree, no save armed. *)
Lemma update_without_change_shows_module_write :
  let s := lastfm_state in
  let r := _update_provider_config lastfm_host "lastfm_scrobble" (VDict []) s in
  lookup_path (_data s) (values_path "lastfm_scrobble" ++ ["_api_key"])
  = Some (VStr "0123abcd")
  /\ (exists config, fst r = Ret config)
  /\ lookup_path (_data (snd r)) (values_path "lastfm_scrobble" ++ ["_api_key"])
     = Some VNone
  /\ _timer_handle (snd r) = None
  /\ events (snd r) = [].
Proof.
  vm_compute. repeat split. eexists. reflexivity.
Qed.

(** C4 (amended): for a stored provider instance, an update whose change set
    comes out empty while the enabled flag equals the availability the host
    reports returns the config right after reading it: nothing is validated,
    no save is scheduled, no file written and no event emitted. The state is
    the one the read left: it differs from the state before at most in the
    stored values of the instance, and only by what the provider module wrote
    into them when asked for its entries; with a module that writes nothing
    the whole state is as before. [save_provider_config] then goes on as
    after any update: it writes the onboard flag, which empties the cache and
    arms the save, and reads the config again. *)
Theorem update_without_change_is_noop {ConfigEntry} (host : Host ConfigEntry)
  instance_id values s config s1 config' prov :
  get_provider_config host instance_id s = (Ret config, s1) ->
  ProviderConfig_update host config values = Ret (config', []) ->
  get_provider host (mass s) (VStr instance_id) = Ret prov ->
  pc_enabled config'
  = match prov with Some p => p_available p | None => false end ->
  _update_provider_config host instance_id values s = (Ret config', s1)
  /\ s1 = with_data (_data s1) s
  /\ (_data s1 = _data s
      \/ exists v values',
           lookup_path (_data s) (values_path instance_id) = Some v
           /\ _data s1
              = write_back_at (_data s) (values_path instance_id) values')
  /\ (leaves_values host -> s1 = s)
  /\ forall dom,
       save_provider_config host dom values (Some instance_id) s
       = get_provider_config host (pc_instance_id config')
           (after_write
              (write_back (_data s1) CONF_ONBOARD_DONE (VBool true)) s1).
Proof.
  intros Hget Hupd Hprov Hen.
  pose proof (get_provider_config_state host instance_id s) as Hw.
  rewrite Hget in Hw. simpl in Hw.
  destruct (resolver_wrote_frame _ _ _ _ _ Hw) as (Hs1 & Hd & Hpure).
  assert (Hupdate :
            _update_provider_config host instance_id values s
            = (Ret config', s1)).
  { unfold _update_provider_config. unfold bind at 1. rewrite Hget.
    unfold bind at 1, lift at 1. rewrite Hupd.
    unfold bind at 1, read at 1. unfold bind at 1, lift at 1.
    replace (mass s1) with (mass s) by (rewrite Hs1; reflexivity).
    rewrite Hprov, Hen. simpl. now rewrite Bool.eqb_reflx. }
  split; [exact Hupdate|]. split; [exact Hs1|]. split; [exact Hd|].
  split; [exact Hpure|].
  intros dom. unfold save_provider_config. unfold bind at 1.
  rewrite Hupdate. unfold bind at 1.
  assert (Hi : initialized s = true /\ is_dict (_data s) = true).
  { revert Hget. unfold get_provider_config. cbv zeta. unfold bind at 1.
    destruct (get (CONF_PROVIDERS ++ "/" ++ instance_id) (VDict []) s)
      as [[raw_conf|e] s0] eqn:Hg; [|discriminate].
    destruct (truthy raw_conf) eqn:Ht; [|discriminate].
    destruct (get_truthy _ _ _ _ Hg Ht) as (_ & Hi & Hl). intros _.
    split; [exact Hi|].
    destruct (subkeys_of (CONF_PROVIDERS ++ "/" ++ instance_id)) as [|k rest]
      eqn:Hk; [now apply subkeys_of_nonempty in Hk|].
    simpl in Hl. now destruct (_data s). }
  destruct Hi as [Hi Hdict].
  assert (Hdict1 : is_dict (_data s1) = true).
  { destruct Hd as [->|(v & values' & _ & ->)]; [exact Hdict|].
    destruct (_data s) as [| | | | | |l]; try discriminate.
    destruct (write_back_at_dict l (values_path instance_id) values')
      as [H|H]; [exact H|].
    rewrite values_path_head in H. discriminate. }
  rewrite set_run by (rewrite Hs1; exact Hi).
  change (subkeys_of CONF_ONBOARD_DONE) with [CONF_ONBOARD_DONE].
  rewrite set_walk_last.
  destruct (_data s1) as [| | | | | |l1]; try discriminate. reflexivity.
Qed.

(** C10: whenever [save_provider_config] returns, for an add as for an
    update, the flag is stored as true at the top of the tree, the
    [onboard_done] property reads true, and the last thing scheduled is the
    debounced save armed by that write. *)
Theorem save_provider_config_marks_onboard_done {ConfigEntry}
  (host : Host ConfigEntry) dom vals instance_id s cfg s' :
  save_provider_config host dom vals instance_id s = (Ret cfg, s') ->
  onboard_done s' = (Ret (VBool true), s')
  /\ lookup_path (_data s') [CONF_ONBOARD_DONE] = Some (VBool true)
  /\ _timer_handle s' = Some DEFAULT_SAVE_DELAY
  /\ exists evs, events s' = evs ++ [TimerArmed DEFAULT_SAVE_DELAY].
Proof.
  unfold save_provider_config. unfold bind at 1.
  match goal with |- context [match ?m s with _ => _ end] =>
    destruct (m s) as [[config|e] s1] end; [|discriminate].
  unfold bind at 1.
  destruct (set CONF_ONBOARD_DONE (VBool true) s1) as [[[]|e] s2] eqn:Hset;
    [|discriminate].
  pose proof (get_provider_config_state host (pc_instance_id config) s2) as Hq.
  intros H. rewrite H in Hq. simpl in Hq.
  apply resolver_wrote_frame in Hq as (Hs' & Hd & _).
  apply set_ok in Hset as (_ & Hi & _ & Ht & Hev & Hw).
  change (subkeys_of CONF_ONBOARD_DONE) with [CONF_ONBOARD_DONE] in Hw.
  rewrite set_walk_last in Hw.
  destruct (_data s1) as [| | | | | |d] eqn:Hd1; simpl in Hw; try discriminate.
  inversion Hw as [Hd2]. clear Hw.
  assert (Hflag : lookup_path (_data s') [CONF_ONBOARD_DONE]
                  = Some (VBool true)).
  { destruct Hd as [->|(v & values' & _ & ->)].
    - rewrite <- Hd2. simpl. now rewrite dict_get_set_same.
    - rewrite values_path_head, write_back_at_other by discriminate.
      rewrite <- Hd2. simpl. now rewrite dict_get_set_same. }
  split; [|split; [exact Hflag|split]].
  - unfold onboard_done. rewrite get_run by (rewrite Hs'; exact Hi).
    change (subkeys_of CONF_ONBOARD_DONE) with [CONF_ONBOARD_DONE].
    rewrite get_walk_last. simpl in Hflag.
    destruct (_data s') as [| | | | | |d']; try discriminate. simpl.
    destruct (dict_get CONF_ONBOARD_DONE d') as [x|]; [|discriminate].
    now inversion Hflag.
  - rewrite Hs'. exact Ht.
  - rewrite Hs'. exact Hev.
Qed.

(** ** Properties of load and migration *)

Lemma clean_ret {A} (a : A) : clean (ret a).
Proof. intros s; split; discriminate. Qed.

Lemma clean_read {A} (f : State -> A) : clean (read f).
Proof. intros s; split; discriminate. Qed.

Lemma clean_modify f : clean (modify f).
Proof. intros s; split; discriminate. Qed.

Lemma clean_lift {A} (o : outcome A) : no_file_error o -> clean (lift o).
Proof. intros H s; exact H. Qed.

Lemma clean_bind {A B} (m : M A) (k : A -> M B) :
  clean m -> (forall a, clean (k a)) -> clean (bind m k).
Proof.
  intros Hm Hk s. unfold bind. specialize (Hm s).
  destruct (m s) as [[a|e] s']; simpl in *.
  - apply Hk.
  - destruct Hm as [H1 H2]. split; congruence.
Qed.

Lemma clean_for_changed {A} (xs : list A) (body : A -> M bool) :
  (forall x, clean (body x)) -> clean (for_changed xs body).
Proof.
  intros Hb. induction xs as [|x xs IH]; simpl.
  - apply clean_ret.
  - apply clean_bind; [apply Hb|]. intros b.
    apply clean_bind; [apply IH|]. intros bs. apply clean_ret.
Qed.

Ltac value_cases :=
  repeat match goal with
         | |- context [match ?x with _ => _ end] => destruct x
         end.

Ltac solve_o :=
  unfold no_file_error, obind, py_get, py_getitem, py_setitem, py_delitem,
    py_contains, py_items, py_values, py_pop_default, py_in_str_set,
    py_split_comma, py_iter, py_index;
  value_cases; split; discriminate.

Lemma clean_py_get p k d : no_file_error (py_get p k d).
Proof. solve_o. Qed.
Lemma clean_py_getitem p k : no_file_error (py_getitem p k).
Proof. solve_o. Qed.
Lemma clean_py_setitem p k v : no_file_error (py_setitem p k v).
Proof. solve_o. Qed.
Lemma clean_py_delitem p k : no_file_error (py_delitem p k).
Proof. solve_o. Qed.
Lemma clean_py_contains p k : no_file_error (py_contains k p).
Proof. solve_o. Qed.
Lemma clean_py_items p : no_file_error (py_items p).
Proof. solve_o. Qed.
Lemma clean_py_values p : no_file_error (py_values p).
Proof. solve_o. Qed.
Lemma clean_py_pop_default p k : no_file_error (py_pop_default p k).
Proof. solve_o. Qed.
Lemma clean_py_in_str_set v l : no_file_error (py_in_str_set v l).
Proof. solve_o. Qed.
Lemma clean_py_split_comma v : no_file_error (py_split_comma v).
Proof. solve_o. Qed.
Lemma clean_py_iter v : no_file_error (py_iter v).
Proof. solve_o. Qed.
Lemma clean_py_index l i : no_file_error (py_index l i).
Proof. solve_o. Qed.

Lemma clean_obind {A B} (o : outcome A) (k : A -> outcome B) :
  no_file_error o -> (forall a, no_file_error (k a)) ->
  no_file_error (obind o k).
Proof.
  intros Ho Hk. destruct o; simpl; auto.
  destruct Ho as [H1 H2]. split; congruence.
Qed.

Create HintDb clean discriminated.
#[local] Hint Resolve clean_ret clean_read clean_modify clean_py_get
  clean_py_getitem clean_py_setitem clean_py_delitem clean_py_contains
  clean_py_items clean_py_values clean_py_pop_default clean_py_in_str_set
  clean_py_split_comma clean_py_iter clean_py_index : clean.

Lemma no_file_error_ret {A} (a : A) : no_file_error (Ret a).
Proof. split; discriminate. Qed.
#[local] Hint Resolve no_file_error_ret : clean.

(** Splits a cleanliness goal along the structure of the method. *)
Ltac clean_step :=
  match goal with
  | |- clean (bind _ _) => apply clean_bind; [|intros ?]
  | |- clean (lift _) => apply clean_lift
  | |- clean (for_changed _ _) => apply clean_for_changed; intros ?
  | |- clean (emit _) => apply clean_modify
  | |- clean (set_data _) => apply clean_modify
  | |- clean (set_files _ _) => apply clean_modify
  | |- clean (if ?b then _ else _) => destruct b
  | |- clean (match ?x with _ => _ end) => destruct x
  | |- clean (let (_, _) := ?x in _) => destruct x eqn:?
  | |- no_file_error (obind _ _) => apply clean_obind; [|intros ?]
  | |- no_file_error (if ?b then _ else _) => destruct b
  | |- no_file_error (match ?x with _ => _ end) => destruct x
  | |- _ => solve [auto with clean]
  end.

Lemma clean_section_items section : clean (section_items section).
Proof. unfold section_items. repeat clean_step. Qed.

Lemma clean_store_entry section key obj : clean (store_entry section key obj).
Proof. unfold store_entry. repeat clean_step. Qed.

Lemma clean_async_save : clean _async_save.
Proof. unfold _async_save. repeat clean_step. Qed.

Lemma no_file_error_raise {A B} e :
  no_file_error (@Raise A e) -> no_file_error (@Raise B e).
Proof. intros [H1 H2]. split; congruence. Qed.

Lemma clean_map_outcome {A B} (f : A -> outcome B) xs :
  (forall x, no_file_error (f x)) -> no_file_error (map_outcome f xs).
Proof.
  intros Hf. induction xs as [|x xs IH]; simpl; repeat clean_step.
Qed.

Lemma clean_join_sample_rate {ConfigEntry} (host : Host ConfigEntry) x :
  no_file_error (join_sample_rate host x).
Proof. unfold join_sample_rate. repeat clean_step. Qed.
#[local] Hint Resolve clean_join_sample_rate clean_map_outcome : clean.

(** The same along a body that returns the mutated entry with its outcome. *)
Ltac entry_step :=
  match goal with
  | |- no_file_error (snd (match ?o with Ret _ => _ | Raise _ => _ end)) =>
      let H := fresh "H" in
      assert (H : no_file_error o) by (repeat clean_step);
      destruct o; [|simpl; exact (no_file_error_raise _ H)]
  | |- no_file_error (snd (if ?b then _ else _)) => destruct b
  | |- no_file_error (snd (let (_, _) := ?p in _)) => destruct p
  | |- no_file_error (snd (_, _)) => simpl; auto with clean
  end.

Lemma clean_migrate_ips v : no_file_error (snd (migrate_ips v)).
Proof. unfold migrate_ips. repeat entry_step. Qed.

Lemma clean_migrate_sample_rates {ConfigEntry} (host : Host ConfigEntry) v :
  no_file_error (snd (migrate_sample_rates host v)).
Proof. unfold migrate_sample_rates. cbv zeta. repeat entry_step. Qed.

Lemma clean_migrate_hide_player v :
  no_file_error (snd (migrate_hide_player v)).
Proof. unfold migrate_hide_player. cbv zeta. repeat entry_step. Qed.

Lemma clean_for_entries section body :
  (forall v, no_file_error (snd (body v))) -> clean (for_entries section body).
Proof.
  intros Hb. unfold for_entries.
  apply clean_bind; [apply clean_section_items|]. intros items.
  apply clean_for_changed. intros kv. specialize (Hb (snd kv)).
  destruct (body (snd kv)) as [obj' r]. simpl in Hb.
  apply clean_bind; [apply clean_store_entry|]. intros _.
  now apply clean_lift.
Qed.

Lemma clean_migrate_corrupt : clean migrate_corrupt.
Proof.
  unfold migrate_corrupt.
  apply clean_bind; [apply clean_section_items|]. intros items.
  repeat clean_step.
Qed.

Lemma clean_migrate_output_limiter : clean migrate_output_limiter.
Proof.
  unfold migrate_output_limiter.
  apply clean_bind; [apply clean_section_items|]. intros items.
  apply clean_for_changed. intros kv. cbv zeta.
  repeat first [apply clean_store_entry | clean_step].
Qed.

Lemma clean_onboard_scan names confs : clean (onboard_scan names confs).
Proof.
  induction confs as [|c confs IH]; simpl; repeat clean_step.
Qed.

Lemma clean_migrate_onboard_done : clean migrate_onboard_done.
Proof.
  unfold migrate_onboard_done.
  repeat first [apply clean_onboard_scan | clean_step].
Qed.

Lemma clean_migrate_slimproto : clean migrate_slimproto.
Proof.
  unfold migrate_slimproto.
  apply clean_bind; [apply clean_section_items|]. intros items.
  apply clean_for_changed. intros kv. cbv zeta.
  repeat clean_step.
Qed.

(** The migration raises neither of the exceptions that [_load] catches. *)
Lemma clean_migrate {ConfigEntry} (host : Host ConfigEntry) :
  clean (_migrate host).
Proof.
  unfold _migrate.
  apply clean_bind; [apply clean_migrate_corrupt|]. intros c1.
  apply clean_bind;
    [apply clean_for_entries, clean_migrate_ips|]. intros c2.
  apply clean_bind;
    [apply clean_for_entries, clean_migrate_sample_rates|]. intros c3.
  apply clean_bind; [apply clean_migrate_output_limiter|]. intros c4.
  apply clean_bind; [apply clean_migrate_onboard_done|]. intros c5.
  apply clean_bind; [apply clean_migrate_slimproto|]. intros c6.
  apply clean_bind;
    [apply clean_for_entries, clean_migrate_hide_player|]. intros c7.
  destruct (c1 || c2 || c3 || c4 || c5 || c6 || c7);
    [apply clean_async_save|apply clean_ret].
Qed.

Lemma clean_adopt {ConfigEntry} (host : Host ConfigEntry) v :
  clean (adopt host v).
Proof.
  unfold adopt. apply clean_bind; [apply clean_modify|]. intros _.
  apply clean_bind; [apply clean_modify|]. intros _. apply clean_migrate.
Qed.

Lemma add_events_nil s : add_events [] s = s.
Proof. destruct s. unfold add_events. simpl. now rewrite app_nil_r. Qed.

Lemma add_events_app e1 e2 s :
  add_events e2 (add_events e1 s) = add_events (e1 ++ e2) s.
Proof. unfold add_events. simpl. now rewrite app_assoc. Qed.

(** A file that parses: whatever the adoption of its tree does is what the
    [try] does. *)
Lemma load_from_parsed {ConfigEntry} (host : Host ConfigEntry) pick s v :
  pick s = Json v ->
  load_from host pick s
  = match adopt host v s with
    | (Ret _, s') => (Ret true, s')
    | (Raise e, s') => (Raise e, s')
    end.
Proof.
  intros Hf. unfold load_from, try_file.
  assert (E : (f <- read pick ;; v0 <- read_json f ;; set_data v0 ;;
               emit (LogDebug "Loaded persistent settings from %s") ;;
               _migrate host) s = adopt host v s).
  { unfold bind at 1, read at 1. rewrite Hf. reflexivity. }
  rewrite E. pose proof (clean_adopt host v s) as [H1 H2].
  destruct (adopt host v s) as [[[]|e] s']; simpl in *; [reflexivity|].
  destruct e; try reflexivity; congruence.
Qed.

Lemma load_from_unreadable {ConfigEntry} (host : Host ConfigEntry) pick s :
  unreadable (pick s) ->
  load_from host pick s = (Ret false, add_events (unreadable_log (pick s)) s).
Proof.
  intros Hu. unfold load_from, try_file, bind at 1, read at 1.
  destruct (pick s); simpl in *; [| |contradiction].
  - now rewrite add_events_nil.
  - reflexivity.
Qed.

(** C6: from the state after [__init__], [_load] takes the primary file when
    it parses and does with its tree what the migration does, the backup
    never read; when the primary file is missing or does not decode (which
    is logged) it takes the backup file in the same way; and when neither
    can be used it returns normally with the empty tree, having logged each
    decoding failure and the start with empty storage. *)
Theorem load_takes_first_parsed_file {ConfigEntry} (host : Host ConfigEntry) s :
  _data s = VDict [] ->
  (forall v, file_primary s = Json v -> _load host s = adopt host v s)
  /\ (forall v,
         unreadable (file_primary s) -> file_backup s = Json v ->
         _load host s
         = adopt host v (add_events (unreadable_log (file_primary s)) s))
  /\ (unreadable (file_primary s) -> unreadable (file_backup s) ->
      exists s',
        _load host s = (Ret tt, s')
        /\ _data s' = VDict []
        /\ events s'
           = events s ++ unreadable_log (file_primary s)
             ++ unreadable_log (file_backup s)
             ++ [LogDebug
                   "Started with empty storage: No persistent storage file found."]).
Proof.
  intros Hd. split; [|split].
  - intros v Hf. unfold _load. unfold bind at 1, read at 1. rewrite Hd.
    change (truthy (VDict [])) with false. unfold bind at 1. cbv beta iota.
    rewrite (load_from_parsed host file_primary s v Hf).
    destruct (adopt host v s) as [[[]|e] s']; reflexivity.
  - intros v Hu Hb. unfold _load. unfold bind at 1, read at 1. rewrite Hd.
    change (truthy (VDict [])) with false. unfold bind at 1. cbv beta iota.
    rewrite (load_from_unreadable host file_primary s Hu).
    cbv beta iota. unfold bind at 1.
    rewrite (load_from_parsed host file_backup
               (add_events (unreadable_log (file_primary s)) s) v Hb).
    destruct (adopt host v _) as [[[]|e] s']; reflexivity.
  - intros Hu1 Hu2. unfold _load. unfold bind at 1, read at 1. rewrite Hd.
    change (truthy (VDict [])) with false. unfold bind at 1. cbv beta iota.
    rewrite (load_from_unreadable host file_primary s Hu1).
    cbv beta iota. unfold bind at 1.
    rewrite (load_from_unreadable host file_backup
               (add_events (unreadable_log (file_primary s)) s) Hu2).
    eexists. split; [reflexivity|]. simpl. rewrite Hd.
    split; [reflexivity|]. now rewrite <- !app_assoc.
Qed.

(** C3, as the code has it: a tree that one run of the migration has left
    behind is saved again by the next run. The last loop of [_migrate] sets
    [changed] for every player that has stored values, so the second run
    reports a change and writes the file once more, the tree being the same
    before and after. *)
Theorem migrate_again_saves_again {ConfigEntry} (host : Host ConfigEntry) :
  exists s1 s2,
    _migrate host restarted = (Ret tt, s1)
    /\ _data s1 = migrated_tree
    /\ _migrate host s1 = (Ret tt, s2)
    /\ _data s2 = migrated_tree
    /\ events s2 = events s1 ++ [LogDebug "Saved data to persistent storage"]
    /\ file_backup s2 = file_primary s1.
Proof.
  do 2 eexists. split; [vm_compute; reflexivity|].
  split; [reflexivity|]. split; [vm_compute; reflexivity|].
  repeat split.
Qed.

(** C5, as the code has it: with a player of the provider that the player
    manager does not hold, removing the provider removes the player's config
    through the store and leaves the player's DSP config behind, while
    removing the player's config itself removes both. *)
Theorem remove_provider_leaves_dsp_config :
  let s := loaded sonos_tree sonos_runtime in
  (exists s',
      remove_provider_config (demo_host quiet) "sonos" s = (Ret tt, s')
      /\ lookup_path (_data s') [CONF_PROVIDERS; "sonos"] = None
      /\ lookup_path (_data s') [CONF_PLAYERS; "kitchen"] = None
      /\ lookup_path (_data s') [CONF_PLAYER_DSP; "kitchen"] = Some kitchen_dsp)
  /\ (exists s',
         remove_player_config (demo_host quiet) "kitchen" s = (Ret tt, s')
         /\ lookup_path (_data s') [CONF_PLAYERS; "kitchen"] = None
         /\ lookup_path (_data s') [CONF_PLAYER_DSP; "kitchen"] = None).
Proof.
  split; eexists; (split; [vm_compute; reflexivity|]); repeat split.
Qed.

(** ** The theorems at concrete inputs *)

Lemma set_then_remove_reads_default_witness :
  let s := loaded sonos_tree sonos_runtime in
  let key := "players/kitchen/values/volume" in
  let s1 := snd (set key (VInt 40) s) in
  initialized s = true
  /\ set key (VInt 40) s = (Ret tt, s1)
  /\ exists s2, remove key s1 = (Ret tt, s2)
                /\ get key (VInt 100) s2 = (Ret (VInt 100), s2).
Proof.
  intros s key s1.
  assert (Hi : initialized s = true) by reflexivity.
  assert (Hs : set key (VInt 40) s = (Ret tt, s1)) by reflexivity.
  split; [exact Hi|]. split; [exact Hs|].
  exact (set_then_remove_reads_default key (VInt 40) (VInt 100) s s1 Hi Hs).
Defined.

Lemma set_keeps_existing_segments_witness :
  let s := loaded sonos_tree sonos_runtime in
  initialized s = true
  /\ lookup_path (_data s) ["onboard_done"] = Some (VBool true)
  /\ (exists e, set "onboard_done/since" (VInt 1) s = (Raise e, s)
                /\ (e = TypeError \/ e = AttributeError)).
Proof.
  intros s.
  assert (Hi : initialized s = true) by reflexivity.
  split; [exact Hi|]. split; [reflexivity|].
  apply (proj1 (set_keeps_existing_segments "onboard_done/since" (VInt 1) s Hi)
           ["onboard_done"] ["since"] (VBool true));
    [reflexivity|discriminate|discriminate|reflexivity|reflexivity].
Defined.

Lemma set_default_writes_when_absent_or_null_witness :
  let s := loaded (VDict [("a", VNone); ("b", VInt 2)]) empty_runtime in
  initialized s = true
  /\ set_default "a" (VInt 1) s = set "a" (VInt 1) s
  /\ set_default "b" (VInt 1) s = (Ret tt, s).
Proof.
  intros s.
  assert (Hi : initialized s = true) by reflexivity.
  split; [exact Hi|].
  pose proof (set_default_writes_when_absent_or_null "a" (VInt 1) s Hi)
    as (_ & Hnull & _).
  pose proof (set_default_writes_when_absent_or_null "b" (VInt 1) s Hi)
    as (_ & _ & Hkeep).
  split.
  - apply Hnull. reflexivity.
  - apply (Hkeep (VInt 2)); [reflexivity|discriminate|discriminate].
Defined.

Lemma encrypt_idempotent_decrypt_inverse_witness :
  let marker := "_encrypted_" in
  startswith "hunter2" marker = false
  /\ toy_decrypt tt (toy_encrypt tt tt "hunter2") = Some "hunter2"
  /\ occurs marker (toy_encrypt tt tt "hunter2") = false
  /\ obind (encrypt_string marker toy_encrypt (Some tt) tt "hunter2")
           (decrypt_string marker toy_decrypt (Some tt))
     = Ret "hunter2".
Proof.
  intros marker.
  assert (H1 : startswith "hunter2" marker = false) by reflexivity.
  assert (H2 : toy_decrypt tt (toy_encrypt tt tt "hunter2") = Some "hunter2")
    by reflexivity.
  assert (H3 : occurs marker (toy_encrypt tt tt "hunter2") = false)
    by reflexivity.
  split; [exact H1|]. split; [exact H2|]. split; [exact H3|].
  exact (proj1 (proj2 (encrypt_idempotent_decrypt_inverse marker unit unit
                         toy_encrypt toy_decrypt))
           tt tt "hunter2" H1 H2 H3).
Defined.

Lemma add_rolls_back_when_activation_raises_witness :
  let host := demo_host failing in
  let s := loaded (VDict []) sonos_runtime in
  let conf_key := "providers/sonos" in
  let s1 := snd (set conf_key (pc_raw new_sonos_config) s) in
  new_provider_config host "sonos" (VDict []) s
  = (Ret (sonos_manifest, new_sonos_config), s)
  /\ set conf_key (pc_raw new_sonos_config) s = (Ret tt, s1)
  /\ load_provider_config host new_sonos_config s1
     = (Raise (ProviderError 1), s1)
  /\ exists s3,
       _add_provider_config host "sonos" (VDict []) s
       = (Raise (ProviderError 1), s3)
       /\ (forall default, get conf_key default s3 = (Ret default, s3))
       /\ get_provider_config host "sonos" s3
          = (Raise (KeyError "No config found for provider id sonos"), s3)
       /\ file_primary s3 = file_primary s1
       /\ file_backup s3 = file_backup s1
       /\ (lookup_path (_data s1) (subkeys_of conf_key) <> None ->
           _timer_handle s3 = Some DEFAULT_SAVE_DELAY)
       /\ exists s4,
            _async_save s3 = (Ret tt, s4)
            /\ file_primary s4 = Json (_data s3)
            /\ forall default, get conf_key default s4 = (Ret default, s4).
Proof.
  intros host s conf_key s1.
  assert (H0 : new_provider_config host "sonos" (VDict []) s
               = (Ret (sonos_manifest, new_sonos_config), s)) by reflexivity.
  assert (H1 : set conf_key (pc_raw new_sonos_config) s = (Ret tt, s1))
    by reflexivity.
  assert (H2 : load_provider_config host new_sonos_config s1
               = (Raise (ProviderError 1), s1)) by reflexivity.
  split; [exact H0|]. split; [exact H1|]. split; [exact H2|].
  exact (add_rolls_back_when_activation_raises host "sonos" (VDict []) s
           sonos_manifest new_sonos_config s s1 s1 (ProviderError 1)
           H0 H1 H2 eq_refl eq_refl).
Defined.

Lemma update_without_change_is_noop_witness :
  let host := demo_host quiet in
  let s := loaded sonos_tree sonos_runtime in
  get_provider_config host "sonos" s = (Ret stored_sonos_config, s)
  /\ _update_provider_config host "sonos" (VDict []) s
     = (Ret stored_sonos_config, s)
  /\ save_provider_config host "sonos" (VDict []) (Some "sonos") s
     = get_provider_config host "sonos"
         (after_write (write_back (_data s) CONF_ONBOARD_DONE (VBool true)) s).
Proof.
  intros host s.
  assert (H0 : get_provider_config host "sonos" s
               = (Ret stored_sonos_config, s)) by reflexivity.
  split; [exact H0|].
  destruct (update_without_change_is_noop host "sonos" (VDict []) s
              stored_sonos_config s stored_sonos_config None
              H0 eq_refl eq_refl eq_refl) as (H1 & _ & _ & _ & H2).
  split; [exact H1|exact (H2 "sonos")].
Defined.

Lemma load_takes_first_parsed_file_witness :
  let s := init_state Undecodable NoFile empty_runtime in
  _data s = VDict []
  /\ exists s',
       _load (demo_host quiet) s = (Ret tt, s')
       /\ _data s' = VDict []
       /\ events s'
          = [LogException "Error while reading persistent storage file %s";
             LogDebug
               "Started with empty storage: No persistent storage file found."].
Proof.
  intros s. split; [reflexivity|].
  exact (proj2 (proj2 (load_takes_first_parsed_file (demo_host quiet) s
                         eq_refl)) I I).
Defined.

Lemma save_provider_config_marks_onboard_done_witness :
  let host := demo_host quiet in
  let s := loaded (VDict []) sonos_runtime in
  let r := save_provider_config host "sonos" (VDict []) None s in
  r = (Ret new_sonos_config, snd r)
  /\ onboard_done (snd r) = (Ret (VBool true), snd r)
  /\ _timer_handle (snd r) = Some DEFAULT_SAVE_DELAY.
Proof.
  intros host s r.
  assert (H0 : r = (Ret new_sonos_config, snd r)) by (vm_compute; reflexivity).
  split; [exact H0|].
  destruct (save_provider_config_marks_onboard_done host "sonos" (VDict [])
              None s new_sonos_config (snd r) H0) as (H1 & _ & H2 & _).
  split; [exact H1|exact H2].
Defined.
